(** * The nbnursery test runner ([src/nbnursery/testutils.py])

    A shallow embedding of the grading engine: argument sources, scenarios,
    cases, groups and suites, their [execute] methods and the serialised
    report, followed by the properties of the engine.

    Conventions of the embedding.
    - Python values that flow through the engine (test data, items of the
      graded module) are an arbitrary type [Value]; every definition and
      theorem is parametric in it.
    - The graded module ([mod]) and the console of the application context
      are mutable objects shared by the whole run.  They live in a [World]
      that every [execute] threads through, together with the stream of
      wall-clock readings and a log of the calls made to wrapped test
      functions.
    - A Python callable is a total function from its argument list and the
      module namespace to an outcome and a new namespace; a call that never
      returns is outside the model.
    - [raise] is the [Raised] outcome; [try]/[except] is a [match] on it. *)

From stdpp Require Import gmap strings list pretty.

Open Scope Z_scope.

(** ** Exceptions and outcomes *)

(** An exception value: the name of its class and its message.  The class
    may be any subclass of [BaseException]. *)
Record Exn := mkExn { exc_type : string; exc_msg : string }.

Inductive Outcome (A : Type) :=
| Returned (a : A)
| Raised (e : Exn).
Arguments Returned {A} a.
Arguments Raised {A} e.

Definition is_raised {A} (o : Outcome A) : bool :=
  match o with Raised _ => true | Returned _ => false end.

(** [repr] of a function name.  Names of [def] functions are identifiers, so
    no character needs escaping. *)
Definition repr_name (s : string) : string := "'" +:+ s +:+ "'".

(** Python's [sum] over integers: left to right from 0. *)
Definition py_sum (l : list Z) : Z := fold_left Z.add l 0.

(** [dict(pairs)]: pairs are inserted left to right, a later pair replaces
    an earlier one with the same key. *)
Definition py_dict {K} `{Countable K} {V} (pairs : list (K * V)) : gmap K V :=
  fold_left (fun m p => <[p.1 := p.2]> m) pairs ∅.

(** ** Rich renderables and tracebacks *)

Inductive TracebackCls := FullTraceback | BriefTraceback.

(** What [traceback_cls(suppress=...)] captures inside an [except] block:
    the class used for rendering, the suppressed modules and the exception
    being handled. *)
Record Traceback := mkTraceback {
  tb_cls : TracebackCls;
  tb_suppress : list string;
  tb_exc : Exn
}.

#[warnings="-register-all"] Inductive Renderable :=
| Str (s : string)
| Text (s : string) (style : string)
| Assemble (parts : list Renderable) (style : string)
| Group (items : list Renderable)
| Padding (body : Renderable) (pad : list nat)
| Render_traceback (tb : Traceback).

(** ** Application context ([grading/context.py]) *)

(** The immutable options of the context; its console is in the [World]. *)
Record ApplicationContext := mkApplicationContext {
  force_grade_all : bool;
  always_zero_exit : bool;
  verbosity : Z
}.

Module ApplicationContext.
Definition show_skip_cells (self : ApplicationContext) : bool :=
  bool_decide (verbosity self >= 2).

Definition show_stack_trace (self : ApplicationContext) : bool :=
  bool_decide (verbosity self >= 1).

(** The console is built with [quiet = verbosity < 0]. *)
Definition console_quiet (self : ApplicationContext) : bool :=
  bool_decide (verbosity self < 0).
End ApplicationContext.

(** ** The world threaded through a run *)

Record World (Value : Type) := mkWorld {
  (** attributes of the graded module *)
  w_mod : gmap string Value;
  (** what [ctx.console.print] has written, one entry per call *)
  w_console : list (list Renderable);
  (** the readings [dt.datetime.now().time().isoformat('seconds')] will give,
      in order *)
  w_clock : nat -> string;
  (** calls made to wrapped test functions so far: name and arguments *)
  w_calls : list (string * list Value)
}.
Arguments mkWorld {Value}.
Arguments w_mod {Value}.
Arguments w_console {Value}.
Arguments w_clock {Value}.
Arguments w_calls {Value}.

(** State passing over the world. *)
Definition Run (Value A : Type) : Type := World Value -> A * World Value.

Definition ret {Value A} (a : A) : Run Value A := fun w => (a, w).

Definition bind {Value A B} (m : Run Value A) (k : A -> Run Value B)
  : Run Value B :=
  fun w => let (a, w') := m w in k a w'.

Declare Scope run_scope.
Delimit Scope run_scope with run.
Notation "'do' x <- m ;; k" := (bind m (fun x => k))
  (at level 10, x name, m at level 99, k at level 200) : run_scope.

(** ** Functions, argument sources, scenarios and cases *)

Inductive ParameterKind :=
| POSITIONAL_ONLY
| POSITIONAL_OR_KEYWORD
| VAR_POSITIONAL
| KEYWORD_ONLY
| VAR_KEYWORD.

#[global] Instance ParameterKind_eq_dec : EqDecision ParameterKind.
Proof. solve_decision. Defined.

Definition POSITIONAL_ARGS : list ParameterKind :=
  [POSITIONAL_ONLY; POSITIONAL_OR_KEYWORD].

(** One entry of [inspect.signature(func).parameters]. *)
Record InspectParameter := mkInspectParameter {
  p_name : string;
  kind : ParameterKind
}.

(** A Python function object: its [__name__], its signature and what calling
    it with positional arguments [f( *args )] does.  [fn_call] is the whole
    call, including the [TypeError] the interpreter raises when the arguments
    do not bind to the signature. *)
Record PyFunc (Value : Type) := mkPyFunc {
  fn_name : string;
  fn_parameters : list InspectParameter;
  fn_call : list Value -> gmap string Value ->
            Outcome Value * gmap string Value
}.
Arguments mkPyFunc {Value}.
Arguments fn_name {Value}.
Arguments fn_parameters {Value}.
Arguments fn_call {Value}.

(** The two argument sources.  [Param] is a dataclass without fields; what
    distinguishes two instances is their identity [id(self)], which is what
    the constructor argument stands for. *)
Inductive ExecArg :=
| ModuleItem (item_name : string)
| Param (ident : nat).

Record TestScenario (Value : Type) := mkTestScenario {
  wrapped_func : PyFunc Value;
  exec_args : list ExecArg
}.
Arguments mkTestScenario {Value}.
Arguments wrapped_func {Value}.
Arguments exec_args {Value}.

Record TestCase (Value : Type) := mkTestCase {
  test_scenario : TestScenario Value;
  params : gmap nat Value
}.
Arguments mkTestCase {Value}.
Arguments test_scenario {Value}.
Arguments params {Value}.

Inductive Judgement := accepted | mistake | skipped.

#[global] Instance Judgement_eq_dec : EqDecision Judgement.
Proof. solve_decision. Defined.

(** The judgement is a string literal in the source; this is that string. *)
Definition judgement_str (j : Judgement) : string :=
  match j with
  | accepted => "accepted"
  | mistake => "mistake"
  | skipped => "skipped"
  end.

(** ** TestCaseResult *)

Module TestCaseResult.
Record t (Value : Type) := mk {
  parent : TestCase Value;
  judgement : Judgement;
  rich_traceback : option Traceback
}.
Arguments mk {Value}.
Arguments parent {Value}.
Arguments judgement {Value}.
Arguments rich_traceback {Value}.

Section methods.
Context {Value : Type}.

Definition is_accepted (self : t Value) : bool :=
  bool_decide (judgement self = accepted).

Definition rich_message (self : t Value) (test_no : nat) : Renderable :=
  let label :=
    match judgement self with
    | accepted => Text "Correct" "deep_sky_blue1"
    | mistake => Text " MISTAKE FOUND " "bold black on red1"
    | skipped => Text "Skipped" "grey23"
    end in
  let heading :=
    Assemble [Str ("Case #" +:+ pretty test_no +:+ ": "); label] "" in
  match rich_traceback self with
  | None => heading
  | Some tb => Group [heading; Padding (Render_traceback tb) [0; 4]%nat]
  end.
End methods.
End TestCaseResult.

(** ** ExecArg.get_value *)

Module ExecArg.
Section methods.
Context {Value : Type}.

(** [ModuleItem]: [getattr(mod, item_name)], an [AttributeError] when the
    module has no such attribute.  [Param]: [test_data.params[id(self)]],
    a [KeyError] when the case binds nothing to that identity. *)
Definition get_value (self : ExecArg) (test_data : TestCase Value)
    (mod_ : gmap string Value) : Outcome Value :=
  match self with
  | ModuleItem item_name =>
      match mod_ !! item_name with
      | Some v => Returned v
      | None => Raised (mkExn "AttributeError" item_name)
      end
  | Param ident =>
      match params test_data !! ident with
      | Some v => Returned v
      | None => Raised (mkExn "KeyError" (pretty ident))
      end
  end.
End methods.
End ExecArg.

(** ** TestScenario *)

Module TestScenario.
Section methods.
Context {Value : Type}.

(** [TestScenario.create( *args )(func)].  The second test is the source's
    [len(sig.parameters) > len(args)], written with [<]. *)
Definition create (args : list ExecArg) (func : PyFunc Value)
  : Outcome (TestScenario Value) :=
  let name := fn_name func in
  let sig := fn_parameters func in
  if negb (forallb (fun fp => bool_decide (kind fp ∈ POSITIONAL_ARGS)) sig)
  then Raised (mkExn "TypeError"
         ("input arguments of wrapped function " +:+ repr_name name
          +:+ " must all be positional"))
  else if bool_decide (length args < length sig)%nat
  then Raised (mkExn "TypeError"
         ("wrapped function " +:+ repr_name name
          +:+ " has too many input arguments per decorator config"))
  else if bool_decide (length sig < length args)%nat
  then Raised (mkExn "TypeError"
         ("wrapped function " +:+ repr_name name
          +:+ " does not have enough input arguments decorator config"))
  else Returned (mkTestScenario func args).

(** [[id(a) for a in self.exec_args if isinstance(a, Param)]]. *)
Definition field_ids (self : TestScenario Value) : list nat :=
  omap (fun a => match a with Param ident => Some ident | _ => None end)
       (exec_args self).

(** [self.data( *params )]. *)
Definition data (self : TestScenario Value) (params : list Value)
  : Outcome (TestCase Value) :=
  let field_ids := field_ids self in
  let field_count := length field_ids in
  let param_count := length params in
  if bool_decide (param_count ≠ field_count)
  then Raised (mkExn "ValueError"
         ("test data for " +:+ repr_name (fn_name (wrapped_func self))
          +:+ " expected " +:+ pretty field_count
          +:+ " fields but instead found " +:+ pretty param_count))
  else
    let params := py_dict (zip field_ids params) in
    Returned (mkTestCase self params).
End methods.
End TestScenario.

(** ** TestCase *)

Module TestCase.
Section methods.
Context {Value : Type}.

(** The list comprehension of [execute]: the sources are resolved in
    order and the first exception ends the comprehension. *)
Fixpoint resolve_args (self : TestCase Value) (mod_ : gmap string Value)
    (args : list ExecArg) : Outcome (list Value) :=
  match args with
  | [] => Returned []
  | arg :: rest =>
      match ExecArg.get_value arg self mod_ with
      | Raised e => Raised e
      | Returned v =>
          match resolve_args self mod_ rest with
          | Raised e => Raised e
          | Returned vs => Returned (v :: vs)
          end
      end
  end.

(** [self.test_scenario.wrapped_func( *exec_args )]: the call is logged,
    the function runs on the module namespace and leaves it as the
    function left it, also when it raises. *)
Definition call_wrapped_func (self : TestCase Value)
    (exec_args : list Value) : Run Value (Outcome Value) :=
  fun w =>
    let func := wrapped_func (test_scenario self) in
    let (out, mod') := fn_call func exec_args (w_mod w) in
    (out, mkWorld mod' (w_console w) (w_clock w)
            (w_calls w ++ [(fn_name func, exec_args)])).

(** The body of the [try] block of [execute]. *)
Definition try_body (self : TestCase Value) : Run Value (Outcome Value) :=
  fun w =>
    match resolve_args self (w_mod w) (exec_args (test_scenario self)) with
    | Raised e => (Raised e, w)
    | Returned exec_args => call_wrapped_func self exec_args w
    end.

Definition suppressed_modules : list string :=
  ["unittest"; "pytest"; "nbnursery"].

Definition execute (self : TestCase Value) (ctx : ApplicationContext)
  : Run Value (TestCaseResult.t Value) :=
  (do out <- try_body self ;;
   match out with
   | Raised e =>
       let traceback_cls :=
         if ApplicationContext.show_stack_trace ctx
         then FullTraceback else BriefTraceback in
       let traceback := mkTraceback traceback_cls suppressed_modules e in
       ret (TestCaseResult.mk self mistake (Some traceback))
   | Returned _ =>
       ret (TestCaseResult.mk self accepted None)
   end)%run.

Definition do_skip (self : TestCase Value) : TestCaseResult.t Value :=
  TestCaseResult.mk self skipped None.
End methods.
End TestCase.

(** ** TestGroup and TestGroupResult *)

Record TestGroup (Value : Type) := mkTestGroup {
  name : string;
  score_weight : Z;
  all_test_cases : list (TestCase Value)
}.
Arguments mkTestGroup {Value}.
Arguments name {Value}.
Arguments score_weight {Value}.
Arguments all_test_cases {Value}.

(** JSON-serialisable Python objects; a [dict] keeps its insertion order. *)
#[warnings="-register-all"] Inductive PyObj :=
| PyStr (s : string)
| PyInt (n : Z)
| PyBool (b : bool)
| PyList (items : list PyObj)
| PyDict (items : list (string * PyObj)).

(** [inflect_engine.plural(word, count)] for a regular noun. *)
Definition plural (word : string) (count : Z) : string :=
  if bool_decide (count = 1) then word else word +:+ "s".

Module TestGroupResult.
Record t (Value : Type) := mk {
  parent : TestGroup Value;
  is_accepted : bool;
  tc_results : list (TestCaseResult.t Value)
}.
Arguments mk {Value}.
Arguments parent {Value}.
Arguments is_accepted {Value}.
Arguments tc_results {Value}.

Section methods.
Context {Value : Type}.

(** [tc_result is None]: the elements of [tc_results] are [TestCaseResult]
    instances, and an instance is never the [None] singleton. *)
Definition is_None (tc_result : TestCaseResult.t Value) : bool := false.

Definition skipped_testcases (self : t Value) : Z :=
  py_sum (map (fun tc_result => Z.b2z (is_None tc_result)) (tc_results self)).

Definition score_earned (self : t Value) : Z :=
  Z.b2z (is_accepted self) * score_weight (parent self).

Definition serialize (self : t Value) : PyObj :=
  PyDict [
    ("group_name", PyStr (name (parent self)));
    ("score_weight", PyInt (score_weight (parent self)));
    ("score_earned", PyInt (score_earned self));
    ("is_accepted", PyBool (is_accepted self));
    ("sub_results",
      PyList (map (fun tc_result =>
                     PyStr (judgement_str (TestCaseResult.judgement tc_result)))
                  (tc_results self)))
  ].

Definition rich_message (self : t Value) : Renderable :=
  let rich_body := [] in
  let rich_body :=
    match all_test_cases (parent self) with
    | [] => rich_body ++ [Text "🤷 Empty test cases" "orange1"]
    | _ => rich_body
    end in
  let rich_body :=
    rich_body ++
    imap (fun i tc_result => TestCaseResult.rich_message tc_result (1 + i)%nat)
         (tc_results self) in
  let rich_body :=
    if is_accepted self then
      rich_body ++ [Text "🎉 Congratulations!" "gold1"]
    else if bool_decide (skipped_testcases self > 0) then
      let unit := plural "test" (skipped_testcases self) in
      rich_body ++
      [Text ("🔧 Skipping " +:+ pretty (skipped_testcases self)
             +:+ " remaining " +:+ unit) "orange_red1"]
    else
      rich_body ++ [Text "🔧 Some mistake found, try again" "orange_red1"] in
  Padding (Group rich_body) [0; 4; 1; 4]%nat.
End methods.
End TestGroupResult.

Module TestGroup.
Section methods.
Context {Value : Type}.

(** The [for] loop of [execute], with the two variables it updates. *)
Fixpoint execute_loop (ctx : ApplicationContext)
    (cases : list (TestCase Value)) (is_accepted : bool)
    (tc_results : list (TestCaseResult.t Value))
  : Run Value (bool * list (TestCaseResult.t Value)) :=
  match cases with
  | [] => ret (is_accepted, tc_results)
  | test_case :: rest =>
      if negb is_accepted && negb (force_grade_all ctx) then
        execute_loop ctx rest is_accepted
          (tc_results ++ [TestCase.do_skip test_case])
      else
        (do result <- TestCase.execute test_case ctx ;;
         execute_loop ctx rest
           (is_accepted && TestCaseResult.is_accepted result)
           (tc_results ++ [result]))%run
  end.

Definition execute (self : TestGroup Value) (ctx : ApplicationContext)
  : Run Value (TestGroupResult.t Value) :=
  (do r <- execute_loop ctx (all_test_cases self) true [] ;;
   ret (TestGroupResult.mk self r.1 r.2))%run.
End methods.
End TestGroup.

(** ** TestSuite and TestSuiteResult *)

Record TestSuite (Value : Type) := mkTestSuite {
  test_groups : list (TestGroup Value)
}.
Arguments mkTestSuite {Value}.
Arguments test_groups {Value}.

Module TestSuiteResult.
Record t (Value : Type) := mk {
  tg_results : list (TestGroupResult.t Value)
}.
Arguments mk {Value}.
Arguments tg_results {Value}.

Section methods.
Context {Value : Type}.

Definition total_weight (self : t Value) : Z :=
  py_sum (map (fun tg_result => score_weight (TestGroupResult.parent tg_result))
              (tg_results self)).

Definition score_earned (self : t Value) : Z :=
  py_sum (map TestGroupResult.score_earned (tg_results self)).

Definition is_perfect (self : t Value) : bool :=
  forallb TestGroupResult.is_accepted (tg_results self).

Definition serialize (self : t Value) : PyObj :=
  PyDict [
    ("total_weight", PyInt (total_weight self));
    ("score_earned", PyInt (score_earned self));
    ("test_groups", PyList (map TestGroupResult.serialize (tg_results self)))
  ].

Definition rich_score (self : t Value) : Renderable :=
  let style :=
    if is_perfect self then "bold bright_green" else "bold orange1" in
  Assemble [
    Text "Final score: " "bold";
    Text (pretty (score_earned self) +:+ "/" +:+ pretty (total_weight self))
         style
  ] "".
End methods.
End TestSuiteResult.

(** [rich_time()] without argument: reads the clock. *)
Definition rich_time {Value} : Run Value Renderable :=
  fun w =>
    let time := w_clock w 0%nat in
    (Assemble [Str ("[" +:+ time +:+ "]")] "spring_green4",
     mkWorld (w_mod w) (w_console w) (fun n => w_clock w (S n)) (w_calls w)).

(** [ctx.console.print( *objects )]; a quiet console prints nothing. *)
Definition console_print {Value} (ctx : ApplicationContext)
    (objects : list Renderable) : Run Value unit :=
  fun w =>
    if ApplicationContext.console_quiet ctx then (tt, w)
    else (tt, mkWorld (w_mod w) (w_console w ++ [objects]) (w_clock w)
                (w_calls w)).

Module TestSuite.
Section methods.
Context {Value : Type}.

(** The [for] loop of [execute]. *)
Fixpoint execute_loop (ctx : ApplicationContext)
    (groups : list (TestGroup Value))
    (tg_results : list (TestGroupResult.t Value))
  : Run Value (list (TestGroupResult.t Value)) :=
  match groups with
  | [] => ret tg_results
  | test_group :: rest =>
      (do now <- rich_time ;;
       do _ <- console_print ctx
              [now; Str "Grading the question:";
               Text (name test_group) "bold cyan1"] ;;
       do result <- TestGroup.execute test_group ctx ;;
       do _ <- console_print ctx [TestGroupResult.rich_message result] ;;
       execute_loop ctx rest (tg_results ++ [result]))%run
  end.

Definition execute (self : TestSuite Value) (ctx : ApplicationContext)
  : Run Value (TestSuiteResult.t Value) :=
  (do tg_results <- execute_loop ctx (test_groups self) [] ;;
   ret (TestSuiteResult.mk tg_results))%run.
End methods.
End TestSuite.

(** ** The rest of [grading/context.py] and of [helpers.py] *)

(** [ApplicationContext(force_grade_all=..., always_zero_exit=...,
    verbose=..., quiet=...)]: [__post_init__] sets
    [verbosity = verbose - quiet]. *)
Definition new_ApplicationContext (force_grade_all always_zero_exit : bool)
    (verbose quiet : Z) : ApplicationContext :=
  mkApplicationContext force_grade_all always_zero_exit (verbose - quiet).

(** [validate_pos(ctx, param, value)], the click callback of the [--width]
    and [--height] options; [ctx] and [param] are not used.  The value is
    [None] when the option is absent. *)
Definition validate_pos (value : option Z) : Outcome (option Z) :=
  match value with
  | None => Returned value
  | Some n =>
      if bool_decide (n > 0) then Returned value
      else Raised (mkExn "BadParameter" "value must be positive")
  end.

(** A Python abstract syntax tree, as far as [ast.NodeVisitor] looks at it:
    a node of class [ast.Name] with its identifier, or a node of another
    class; either with its child nodes in field order. *)
#[warnings="-register-all"] Inductive AST :=
| Name (id : string) (children : list AST)
| OtherNode (class_name : string) (children : list AST).

(** [_IdentifierSearcher(id_name).visit(node)], on the [result] field of
    the visitor.  [visit] dispatches a [Name] node to [visit_Name], which
    sets [result] when the identifier is the one searched for and goes on
    with [generic_visit]; any other node goes to [generic_visit], which
    visits the children in order. *)
Fixpoint IdentifierSearcher_visit (id_name : string) (node : AST)
    (result : bool) : bool :=
  match node with
  | Name id children =>
      let result := if bool_decide (id = id_name) then true else result in
      fold_left (fun result child =>
                   IdentifierSearcher_visit id_name child result)
                children result
  | OtherNode _ children =>
      fold_left (fun result child =>
                   IdentifierSearcher_visit id_name child result)
                children result
  end.

(** [code_contains_identifier(code, id_name)].  [compile] is the builtin
    called with [ast.PyCF_ONLY_AST]: it parses a string, raising on a syntax
    error, and returns a tree as it is. *)
Definition code_contains_identifier (compile : string -> Outcome AST)
    (code : AST + string) (id_name : string) : Outcome bool :=
  let tree :=
    match code with
    | inl tree => Returned tree
    | inr source => compile source
    end in
  match tree with
  | Raised e => Raised e
  | Returned tree => Returned (IdentifierSearcher_visit id_name tree false)
  end.

(** The exit status of the grading script: the last statement of [program]
    in [grade.py],
    [raise SystemExit(0 if always_zero_exit or result.is_perfect else 1)],
    where [result] is what [TEST_SUITE.execute(ctx, mod)] returned. *)
Definition program_exit_status {Value} (ctx : ApplicationContext)
    (result : TestSuiteResult.t Value) : Z :=
  if always_zero_exit ctx || TestSuiteResult.is_perfect result then 0 else 1.

(** * An instance: the [count_even] question of [grade.py]

    A small value type, the scenario [test_count_even] of the grading
    script, a graded module that defines [count_even], and a few groups and
    suites built from it.  The properties below are stated for every value
    type; this instance is where they are evaluated. *)

Inductive ExamValue :=
| IntValue (n : Z)
| IntList (values : list Z)
| Callable (f : list Z -> Z)
| NoneValue.

(** A correct [count_even], as a candidate would submit it. *)
Definition count_even (values : list Z) : Z :=
  Z.of_nat (length (List.filter Z.even values)).

(** [test_count_even(func, values, expected)]: calls [func(values)] and
    asserts that the result equals [expected]. *)
Definition test_count_even : PyFunc ExamValue :=
  mkPyFunc "test_count_even"
    [mkInspectParameter "func" POSITIONAL_OR_KEYWORD;
     mkInspectParameter "values" POSITIONAL_OR_KEYWORD;
     mkInspectParameter "expected" POSITIONAL_OR_KEYWORD]
    (fun args mod_ =>
       match args with
       | [Callable func; IntList values; IntValue expected] =>
           let result := func values in
           if bool_decide (result = expected)
           then (Returned NoneValue, mod_)
           else (Raised (mkExn "AssertionError"
                           (pretty result +:+ " != " +:+ pretty expected)),
                 mod_)
       | _ => (Raised (mkExn "TypeError" "bad arguments"), mod_)
       end).

(** The scenario made by
    [@TestScenario.create(ModuleItem('count_even'), Param(), Param())];
    1 and 2 stand for the identities of the two [Param] objects. *)
Definition count_even_sources : list ExecArg :=
  [ModuleItem "count_even"; Param 1; Param 2].

Definition count_even_scenario : TestScenario ExamValue :=
  mkTestScenario test_count_even count_even_sources.

(** [test_count_even.data([1, 2, 3, 4, 5], 2)]: passes on a correct
    [count_even]. *)
Definition case_expect_2 : TestCase ExamValue :=
  mkTestCase count_even_scenario
    (py_dict [(1%nat, IntList [1; 2; 3; 4; 5]); (2%nat, IntValue 2)]).

(** [test_count_even.data([1, 2, 3, 4, 5], 3)]: fails on a correct
    [count_even]. *)
Definition case_expect_3 : TestCase ExamValue :=
  mkTestCase count_even_scenario
    (py_dict [(1%nat, IntList [1; 2; 3; 4; 5]); (2%nat, IntValue 3)]).

(** A group whose first case fails and whose second case would pass. *)
Definition group_fail_first : TestGroup ExamValue :=
  mkTestGroup "0. Count Even" 10 [case_expect_3; case_expect_2].

Definition group_all_pass : TestGroup ExamValue :=
  mkTestGroup "pass" 10 [case_expect_2].

Definition group_one_mistake : TestGroup ExamValue :=
  mkTestGroup "one mistake" 20 [case_expect_2; case_expect_3].

(** A failing group that weighs nothing. *)
Definition group_weight_0 : TestGroup ExamValue :=
  mkTestGroup "no weight" 0 [case_expect_3].

Definition group_empty : TestGroup ExamValue :=
  mkTestGroup "empty" 5 [].

Definition suite_10_20 : TestSuite ExamValue :=
  mkTestSuite [group_all_pass; group_one_mistake].

(** A suite whose first group fails. *)
Definition suite_fail_then_pass : TestSuite ExamValue :=
  mkTestSuite [group_fail_first; group_all_pass].

Definition ctx_default : ApplicationContext :=
  mkApplicationContext false false 0.

Definition ctx_force : ApplicationContext :=
  mkApplicationContext true false 0.

Definition ctx_verbose : ApplicationContext :=
  mkApplicationContext false false 2.

(** The graded module: it defines [count_even]. *)
Definition exam_mod : gmap string ExamValue :=
  {[ "count_even" := Callable count_even ]}.

Definition exam_world : World ExamValue :=
  mkWorld exam_mod [] (fun _ => "12:00:00") [].


(** The traceback of [case_expect_3] on the graded module, at verbosity 0. *)
Definition expect_3_traceback : Traceback :=
  mkTraceback BriefTraceback ["unittest"; "pytest"; "nbnursery"]
    (mkExn "AssertionError" "2 != 3").

(** * Properties of the engine *)

(** ** Specification-side vocabulary *)

(** An argument source is a [Param]. *)
Definition is_Param (a : ExecArg) : bool :=
  match a with Param _ => true | ModuleItem _ => false end.

(** A declared parameter is plain positional. *)
Definition is_positional (fp : InspectParameter) : bool :=
  bool_decide (kind fp ∈ POSITIONAL_ARGS).

(** The three judgement strings of the serialised report. *)
Definition judgement_strings : list string :=
  ["accepted"; "mistake"; "skipped"].

(** The identifier [id_name] is the identifier of a [Name] node of the
    tree. *)
Inductive name_occurs (id_name : string) : AST -> Prop :=
| name_occurs_here children :
    name_occurs id_name (Name id_name children)
| name_occurs_under_Name id children child :
    child ∈ children →
    name_occurs id_name child →
    name_occurs id_name (Name id children)
| name_occurs_under_OtherNode class_name children child :
    child ∈ children →
    name_occurs id_name child →
    name_occurs id_name (OtherNode class_name children).

(** What a suite prints on a console that is not quiet, for the group
    results [results], when the clock gives the readings [clock]: for each
    group, the line that announces it, with the reading of the clock, and the
    message of its result. *)
Definition suite_console_lines {Value} (clock : nat -> string)
    (results : list (TestGroupResult.t Value)) : list (list Renderable) :=
  concat
    (imap (fun i r =>
             [[Assemble [Str ("[" +:+ clock i +:+ "]")] "spring_green4";
               Str "Grading the question:";
               Text (name (TestGroupResult.parent r)) "bold cyan1"];
              [TestGroupResult.rich_message r]])
          results).

Section properties.
Context {Value : Type}.

Implicit Types (w : World Value) (ctx : ApplicationContext).

(** The world in which iteration [i] of the loop of [TestGroup.execute]
    starts: the world left by the first [i] cases. *)
Definition world_before_case ctx (self : TestGroup Value) (i : nat) w
  : World Value :=
  (TestGroup.execute_loop ctx (take i (all_test_cases self)) true [] w).2.

(** The world in which the suite starts grading its group [i]. *)
Definition world_before_group ctx (self : TestSuite Value) (i : nat) w
  : World Value :=
  (TestSuite.execute_loop ctx (take i (test_groups self)) [] w).2.

(** Two group results give the same report: same group, same flag, same
    judgements.  Their tracebacks may differ. *)
Definition same_report (r1 r2 : TestGroupResult.t Value) : Prop :=
  TestGroupResult.parent r1 = TestGroupResult.parent r2 ∧
  TestGroupResult.is_accepted r1 = TestGroupResult.is_accepted r2 ∧
  map TestCaseResult.judgement (TestGroupResult.tc_results r1)
  = map TestCaseResult.judgement (TestGroupResult.tc_results r2).

(** [List.map] is the [fmap] of lists. *)
Lemma map_fmap {A B} (f : A → B) (l : list A) : map f l = f <$> l.
Proof. reflexivity. Qed.

(** ** Sums *)

Lemma fold_left_add_shift (l : list Z) (a : Z) :
  fold_left Z.add l a = a + fold_left Z.add l 0.
Proof.
  revert a. induction l as [|x l IH]; intros a; simpl; [lia|].
  rewrite (IH (a + x)), (IH (0 + x)). lia.
Qed.

Lemma py_sum_cons (x : Z) (l : list Z) : py_sum (x :: l) = x + py_sum l.
Proof. unfold py_sum. simpl. rewrite fold_left_add_shift. lia. Qed.

Lemma py_sum_foldr (l : list Z) : py_sum l = foldr Z.add 0 l.
Proof.
  induction l as [|x l IH]; [reflexivity|].
  rewrite py_sum_cons, IH. reflexivity.
Qed.

(** ** One case *)

Lemma case_execute_unfold (self : TestCase Value) ctx w :
  TestCase.execute self ctx w =
  match TestCase.try_body self w with
  | (Raised e, w') =>
      (TestCaseResult.mk self mistake
         (Some (mkTraceback
                  (if ApplicationContext.show_stack_trace ctx
                   then FullTraceback else BriefTraceback)
                  TestCase.suppressed_modules e)), w')
  | (Returned _, w') => (TestCaseResult.mk self accepted None, w')
  end.
Proof.
  unfold TestCase.execute, bind.
  destruct (TestCase.try_body self w) as [[v|e] w']; reflexivity.
Qed.

Lemma case_execute_parent (self : TestCase Value) ctx w :
  TestCaseResult.parent (TestCase.execute self ctx w).1 = self.
Proof.
  rewrite case_execute_unfold.
  destruct (TestCase.try_body self w) as [[v|e] w']; reflexivity.
Qed.

Lemma case_execute_not_skipped (self : TestCase Value) ctx w :
  TestCaseResult.judgement (TestCase.execute self ctx w).1 ≠ skipped.
Proof.
  rewrite case_execute_unfold.
  destruct (TestCase.try_body self w) as [[v|e] w']; discriminate.
Qed.

Lemma case_execute_accepted_or_mistake (self : TestCase Value) ctx w :
  let r := (TestCase.execute self ctx w).1 in
  (TestCaseResult.judgement r = accepted ∧ TestCaseResult.is_accepted r = true)
  ∨ (TestCaseResult.judgement r = mistake
     ∧ TestCaseResult.is_accepted r = false).
Proof.
  simpl. rewrite case_execute_unfold.
  destruct (TestCase.try_body self w) as [[v|e] w']; [left|right]; done.
Qed.

Lemma is_accepted_true (r : TestCaseResult.t Value) :
  TestCaseResult.is_accepted r = true ↔ TestCaseResult.judgement r = accepted.
Proof. unfold TestCaseResult.is_accepted. apply bool_decide_eq_true. Qed.

(** C4. [TestCase.execute] returns [accepted], without detail, when the
    resolution of the arguments and the call of the wrapped function raise
    nothing; it returns [mistake] with a traceback of the exception when the
    resolution raises (the function is then not called and the world is left
    as it was) or when the call raises, whatever the exception is.
    [TestCase.do_skip] builds a [skipped] result without detail; it takes no
    world, so it calls nothing.  In a result of [execute] a detail is present
    exactly when the judgement is [mistake]. *)
Theorem C4_case_execute_classification (self : TestCase Value) ctx w :
  let func := wrapped_func (test_scenario self) in
  let resolved :=
    TestCase.resolve_args self (w_mod w) (exec_args (test_scenario self)) in
  let r := (TestCase.execute self ctx w).1 in
  let w' := (TestCase.execute self ctx w).2 in
  (∀ args v, resolved = Returned args →
     (fn_call func args (w_mod w)).1 = Returned v →
     r = TestCaseResult.mk self accepted None) ∧
  (∀ e, resolved = Raised e →
     TestCaseResult.parent r = self ∧
     TestCaseResult.judgement r = mistake ∧
     (∃ tb, TestCaseResult.rich_traceback r = Some tb ∧ tb_exc tb = e) ∧
     w' = w) ∧
  (∀ args e, resolved = Returned args →
     (fn_call func args (w_mod w)).1 = Raised e →
     TestCaseResult.parent r = self ∧
     TestCaseResult.judgement r = mistake ∧
     (∃ tb, TestCaseResult.rich_traceback r = Some tb ∧ tb_exc tb = e)) ∧
  TestCase.do_skip self = TestCaseResult.mk self skipped None ∧
  (is_Some (TestCaseResult.rich_traceback r)
     ↔ TestCaseResult.judgement r = mistake).
Proof.
  simpl. rewrite case_execute_unfold. unfold TestCase.try_body.
  destruct (TestCase.resolve_args self (w_mod w) _) as [args0|e0] eqn:Hres.
  - unfold TestCase.call_wrapped_func.
    destruct (fn_call _ args0 (w_mod w)) as [[v0|e1] m'] eqn:Hcall; simpl;
      split_and!; intros; simplify_eq/=; rewrite ?Hcall in *;
      simplify_eq/=; eauto.
    + split; [intros [x Hx]|]; done.
    + split; [done|eauto].
  - simpl. split_and!; intros; simplify_eq/=; eauto;
      try (split; [done|by eauto]).
Qed.

(** ** The loop of [TestGroup.execute] *)

Lemma group_loop_acc ctx (cases : list (TestCase Value)) acc res w :
  TestGroup.execute_loop ctx cases acc res w =
  let '(a, new, w') := TestGroup.execute_loop ctx cases acc [] w in
  (a, res ++ new, w').
Proof.
  revert acc res w. induction cases as [|c rest IH]; intros acc res w; simpl.
  - unfold ret. by rewrite app_nil_r.
  - destruct (negb acc && negb (force_grade_all ctx)).
    + rewrite (IH acc (res ++ _)), (IH acc [TestCase.do_skip c]).
      destruct (TestGroup.execute_loop ctx rest acc [] w) as [[a new] w'].
      by rewrite <- app_assoc.
    + unfold bind. destruct (TestCase.execute c ctx w) as [r w1].
      rewrite (IH _ (res ++ _)), (IH _ [r]).
      destruct (TestGroup.execute_loop ctx rest _ [] w1) as [[a new] w'].
      by rewrite <- app_assoc.
Qed.

Lemma group_loop_cons ctx (c : TestCase Value) rest acc w :
  TestGroup.execute_loop ctx (c :: rest) acc [] w =
  if negb acc && negb (force_grade_all ctx) then
    let '(a, new, w') := TestGroup.execute_loop ctx rest acc [] w in
    (a, TestCase.do_skip c :: new, w')
  else
    let (r, w1) := TestCase.execute c ctx w in
    let '(a, new, w') :=
      TestGroup.execute_loop ctx rest
        (acc && TestCaseResult.is_accepted r) [] w1 in
    (a, r :: new, w').
Proof.
  simpl. destruct (negb acc && negb (force_grade_all ctx)).
  - by rewrite group_loop_acc.
  - unfold bind. destruct (TestCase.execute c ctx w) as [r w1].
    by rewrite group_loop_acc.
Qed.

Lemma group_loop_app ctx (l1 l2 : list (TestCase Value)) acc res w :
  TestGroup.execute_loop ctx (l1 ++ l2) acc res w =
  let '(a, r, w1) := TestGroup.execute_loop ctx l1 acc res w in
  TestGroup.execute_loop ctx l2 a r w1.
Proof.
  revert acc res w. induction l1 as [|c l1 IH]; intros acc res w; simpl.
  - done.
  - destruct (negb acc && negb (force_grade_all ctx)); [apply IH|].
    unfold bind. destruct (TestCase.execute c ctx w) as [r w1]. apply IH.
Qed.

(** Every declared case gets a result, in declared order. *)
Lemma group_loop_parents ctx (cases : list (TestCase Value)) acc w :
  map TestCaseResult.parent (TestGroup.execute_loop ctx cases acc [] w).1.2
  = cases.
Proof.
  revert acc w. induction cases as [|c rest IH]; intros acc w; [done|].
  rewrite group_loop_cons.
  destruct (negb acc && negb (force_grade_all ctx)).
  - specialize (IH acc w).
    destruct (TestGroup.execute_loop ctx rest acc [] w) as [[a new] w'].
    simpl in *. by rewrite IH.
  - pose proof (case_execute_parent c ctx w) as Hp.
    destruct (TestCase.execute c ctx w) as [r w1]. simpl in Hp.
    specialize (IH (acc && TestCaseResult.is_accepted r) w1).
    destruct (TestGroup.execute_loop ctx rest _ [] w1) as [[a new] w'].
    simpl in *. by rewrite IH, Hp.
Qed.

(** The flag returned by the loop: the initial flag and every new result
    accepted. *)
Lemma group_loop_flag ctx (cases : list (TestCase Value)) acc w :
  let '(a, new, _) := TestGroup.execute_loop ctx cases acc [] w in
  a = acc && forallb TestCaseResult.is_accepted new.
Proof.
  revert acc w. induction cases as [|c rest IH]; intros acc w.
  - simpl. by rewrite andb_true_r.
  - rewrite group_loop_cons.
    destruct (negb acc && negb (force_grade_all ctx)) eqn:Hskip.
    + specialize (IH acc w).
      destruct (TestGroup.execute_loop ctx rest acc [] w) as [[a new] w'].
      simpl. destruct acc; [done|]. by rewrite IH.
    + destruct (TestCase.execute c ctx w) as [r w1].
      specialize (IH (acc && TestCaseResult.is_accepted r) w1).
      destruct (TestGroup.execute_loop ctx rest _ [] w1) as [[a new] w'].
      simpl. by rewrite IH, andb_assoc.
Qed.

Lemma group_loop_length ctx (cases : list (TestCase Value)) acc w :
  length (TestGroup.execute_loop ctx cases acc [] w).1.2 = length cases.
Proof.
  rewrite <- (length_map TestCaseResult.parent).
  by rewrite group_loop_parents.
Qed.

(** Once the flag is false and the run does not force grading, the loop only
    skips: it executes nothing and leaves the world as it is. *)
Lemma group_loop_skip_all ctx (cases : list (TestCase Value)) w :
  force_grade_all ctx = false →
  TestGroup.execute_loop ctx cases false [] w
  = (false, map TestCase.do_skip cases, w).
Proof.
  intros Hf. induction cases as [|c rest IH]; [done|].
  rewrite group_loop_cons, Hf, IH. done.
Qed.

Lemma group_loop_cascade ctx (cases : list (TestCase Value)) acc w :
  force_grade_all ctx = false →
  ∀ (i j : nat) ri rj,
    (j < i)%nat →
    (TestGroup.execute_loop ctx cases acc [] w).1.2 !! j = Some rj →
    TestCaseResult.judgement rj = mistake →
    (TestGroup.execute_loop ctx cases acc [] w).1.2 !! i = Some ri →
    TestCaseResult.judgement ri = skipped.
Proof.
  intros Hf. revert acc w.
  induction cases as [|c rest IH]; intros acc w i j ri rj Hlt Hj Hm Hi.
  - done.
  - destruct acc.
    + rewrite group_loop_cons in Hj, Hi. simpl in Hj, Hi.
      pose proof (case_execute_accepted_or_mistake c ctx w) as Hr.
      destruct (TestCase.execute c ctx w) as [r w1]. simpl in Hr.
      destruct i as [|i]; [lia|].
      destruct j as [|j].
      * assert (TestCaseResult.is_accepted r = false) as Hna.
        { destruct (TestGroup.execute_loop ctx rest _ [] w1) as [[a new] w'].
          simpl in Hj. injection Hj as ->.
          destruct Hr as [[Hr _]|[_ Hr]]; congruence. }
        rewrite Hna, group_loop_skip_all in Hi by done. simpl in Hi.
        rewrite map_fmap, list_lookup_fmap in Hi.
        destruct (rest !! i); simplify_eq/=. done.
      * specialize (IH (TestCaseResult.is_accepted r) w1 i j ri rj).
        destruct (TestGroup.execute_loop ctx rest _ [] w1) as [[a new] w'].
        simpl in *. apply IH; [lia|done..].
    + rewrite group_loop_skip_all in Hi by done. cbn [fst snd] in Hi.
      rewrite map_fmap, list_lookup_fmap in Hi.
      destruct ((c :: rest) !! i); simplify_eq/=. done.
Qed.

(** Iteration [i] of the loop: from the flag and the world left by the first
    [i] cases, it either skips the case or executes it; its result is the
    [i]-th result of the whole loop. *)
Lemma group_loop_iteration ctx (self : TestGroup Value) (i : nat) c w :
  all_test_cases self !! i = Some c →
  let '(a, _, w1) :=
    TestGroup.execute_loop ctx (take i (all_test_cases self)) true [] w in
  let skip := negb a && negb (force_grade_all ctx) in
  (TestGroup.execute self ctx w).1.(TestGroupResult.tc_results) !! i
  = Some (if skip then TestCase.do_skip c
          else (TestCase.execute c ctx w1).1)
  ∧ world_before_case ctx self (S i) w
    = (if skip then w1 else (TestCase.execute c ctx w1).2).
Proof.
  intros Hc. unfold world_before_case, TestGroup.execute, bind.
  pose proof (take_drop_middle _ _ _ Hc) as Hsplit.
  rewrite (take_S_r _ _ _ Hc).
  replace (TestGroup.execute_loop ctx (all_test_cases self) true [] w)
    with (TestGroup.execute_loop ctx
            (take i (all_test_cases self)
             ++ c :: drop (S i) (all_test_cases self)) true [] w)
    by (by rewrite Hsplit).
  rewrite !group_loop_app.
  pose proof (group_loop_length ctx (take i (all_test_cases self)) true w)
    as Hlen.
  destruct (TestGroup.execute_loop ctx (take i _) true [] w)
    as [[a res] w1].
  simpl in Hlen. rewrite length_take_le in Hlen
    by (apply Nat.lt_le_incl, lookup_lt_is_Some; eauto).
  rewrite (group_loop_acc _ (c :: _)), group_loop_cons. simpl.
  destruct (negb a && negb (force_grade_all ctx)).
  - destruct (TestGroup.execute_loop ctx (drop (S i) _) a [] w1)
      as [[a' new] w'].
    simpl. split; [|done].
    rewrite lookup_app_r by lia. by rewrite Hlen, Nat.sub_diag.
  - unfold bind. destruct (TestCase.execute c ctx w1) as [r w2].
    destruct (TestGroup.execute_loop ctx (drop (S i) _) _ [] w2)
      as [[a' new] w'].
    simpl. split; [|done].
    rewrite lookup_app_r by lia. by rewrite Hlen, Nat.sub_diag.
Qed.

(** C1. With [force_grade_all] false, in the results of [TestGroup.execute]
    every result that comes after a [mistake] is [skipped]; and the iteration
    of a skipped case leaves the world as it found it: in particular the log
    of calls to wrapped functions does not grow, the case's verification
    routine is not invoked. *)
Theorem C1_skip_cascade (self : TestGroup Value) ctx w :
  force_grade_all ctx = false →
  let result := (TestGroup.execute self ctx w).1 in
  (∀ (i j : nat) ri rj,
     (j < i)%nat →
     TestGroupResult.tc_results result !! j = Some rj →
     TestCaseResult.judgement rj = mistake →
     TestGroupResult.tc_results result !! i = Some ri →
     TestCaseResult.judgement ri = skipped) ∧
  (∀ (i : nat) ri,
     TestGroupResult.tc_results result !! i = Some ri →
     TestCaseResult.judgement ri = skipped →
     world_before_case ctx self (S i) w = world_before_case ctx self i w
     ∧ w_calls (world_before_case ctx self (S i) w)
       = w_calls (world_before_case ctx self i w)).
Proof.
  intros Hf. simpl. split.
  - pose proof (group_loop_cascade ctx (all_test_cases self) true w Hf) as H.
    unfold TestGroup.execute, bind.
    destruct (TestGroup.execute_loop ctx _ true [] w) as [[a res] w'].
    exact H.
  - intros i ri Hi Hs.
    assert (is_Some (all_test_cases self !! i)) as [c Hc].
    { apply lookup_lt_is_Some.
      rewrite <- (group_loop_length ctx _ true w).
      apply lookup_lt_is_Some. exists ri.
      revert Hi. unfold TestGroup.execute, bind.
      by destruct (TestGroup.execute_loop ctx _ true [] w) as [[a res] w']. }
    pose proof (group_loop_iteration ctx self i c w Hc) as Hit.
    unfold world_before_case at 2 4.
    destruct (TestGroup.execute_loop ctx (take i _) true [] w)
      as [[a res] w1].
    simpl in Hit. destruct Hit as [Hres Hw].
    rewrite Hi in Hres. injection Hres as ->.
    destruct (negb a && negb (force_grade_all ctx)).
    + simpl. by rewrite Hw.
    + by destruct (case_execute_not_skipped c ctx w1).
Qed.

(** ** Group results *)

Lemma group_execute_unfold (self : TestGroup Value) ctx w :
  TestGroup.execute self ctx w =
  let '(a, res, w') :=
    TestGroup.execute_loop ctx (all_test_cases self) true [] w in
  (TestGroupResult.mk self a res, w').
Proof.
  unfold TestGroup.execute, bind.
  by destruct (TestGroup.execute_loop ctx _ true [] w) as [[a res] w'].
Qed.

Lemma group_execute_parent (self : TestGroup Value) ctx w :
  TestGroupResult.parent (TestGroup.execute self ctx w).1 = self.
Proof.
  rewrite group_execute_unfold.
  by destruct (TestGroup.execute_loop ctx _ true [] w) as [[a res] w'].
Qed.

Lemma group_execute_parents (self : TestGroup Value) ctx w :
  map TestCaseResult.parent
      (TestGroupResult.tc_results (TestGroup.execute self ctx w).1)
  = all_test_cases self.
Proof.
  rewrite group_execute_unfold.
  pose proof (group_loop_parents ctx (all_test_cases self) true w) as H.
  by destruct (TestGroup.execute_loop ctx _ true [] w) as [[a res] w'].
Qed.

Lemma forallb_accepted_Forall (l : list (TestCaseResult.t Value)) :
  forallb TestCaseResult.is_accepted l = true
  ↔ Forall (λ r, TestCaseResult.judgement r = accepted) l.
Proof.
  rewrite forallb_forall, Forall_forall.
  split; intros H r Hr.
  - apply is_accepted_true, H. by apply list_elem_of_In.
  - apply is_accepted_true, H. by apply list_elem_of_In.
Qed.

Lemma group_execute_is_accepted (self : TestGroup Value) ctx w :
  let result := (TestGroup.execute self ctx w).1 in
  TestGroupResult.is_accepted result
  = forallb TestCaseResult.is_accepted (TestGroupResult.tc_results result).
Proof.
  simpl. rewrite group_execute_unfold.
  pose proof (group_loop_flag ctx (all_test_cases self) true w) as H.
  by destruct (TestGroup.execute_loop ctx _ true [] w) as [[a res] w'].
Qed.

(** C2, as the code has it.  The score of a group result is the weight when
    the group is accepted and 0 otherwise, so it is 0 or the weight; the
    group is accepted exactly when every case result is [accepted].  For a
    weight other than 0 the score equals the weight exactly when every case
    result is [accepted]. *)
Theorem C2_group_score_all_or_nothing (self : TestGroup Value) ctx w :
  let result := (TestGroup.execute self ctx w).1 in
  let all_accepted :=
    Forall (λ r, TestCaseResult.judgement r = accepted)
           (TestGroupResult.tc_results result) in
  (TestGroupResult.score_earned result = 0
   ∨ TestGroupResult.score_earned result = score_weight self) ∧
  (TestGroupResult.is_accepted result = true ↔ all_accepted) ∧
  TestGroupResult.score_earned result
    = (if TestGroupResult.is_accepted result then score_weight self else 0) ∧
  (score_weight self ≠ 0 →
   (TestGroupResult.score_earned result = score_weight self ↔ all_accepted)).
Proof.
  simpl.
  pose proof (group_execute_is_accepted self ctx w) as Hacc.
  pose proof (group_execute_parent self ctx w) as Hpar.
  simpl in Hacc. rewrite <- forallb_accepted_Forall, <- Hacc.
  unfold TestGroupResult.score_earned. rewrite Hpar.
  destruct (TestGroupResult.is_accepted _); simpl.
  - split_and!; [right; lia|done|lia|]. intros _. split; [done|lia].
  - split_and!; [by left|done|done|].
    intros Hw. split; [|done]. intros H0. by destruct Hw.
Qed.

(** C8. The serialised result of a group is a dictionary with the keys
    [group_name], [score_weight], [score_earned], [is_accepted] and
    [sub_results], in this order; the first two are the name and the weight
    of the group; [sub_results] is a list of judgement strings, one per
    declared case and in declared order: entry [i] is the judgement of the
    result whose parent is case [i]. *)
Theorem C8_group_serialize (self : TestGroup Value) ctx w :
  let result := (TestGroup.execute self ctx w).1 in
  ∃ subs : list string,
    TestGroupResult.serialize result
    = PyDict [
        ("group_name", PyStr (name self));
        ("score_weight", PyInt (score_weight self));
        ("score_earned", PyInt (TestGroupResult.score_earned result));
        ("is_accepted", PyBool (TestGroupResult.is_accepted result));
        ("sub_results", PyList (map PyStr subs))
      ] ∧
    length subs = length (all_test_cases self) ∧
    Forall (λ s, s ∈ judgement_strings) subs ∧
    (∀ (i : nat) c,
       all_test_cases self !! i = Some c →
       ∃ r, TestGroupResult.tc_results result !! i = Some r ∧
            TestCaseResult.parent r = c ∧
            subs !! i = Some (judgement_str (TestCaseResult.judgement r))).
Proof.
  simpl.
  pose proof (group_execute_parent self ctx w) as Hpar.
  pose proof (group_execute_parents self ctx w) as Hps.
  set (result := (TestGroup.execute self ctx w).1) in *.
  exists (map (λ r, judgement_str (TestCaseResult.judgement r))
              (TestGroupResult.tc_results result)).
  split_and!.
  - unfold TestGroupResult.serialize. rewrite Hpar.
    by rewrite map_map.
  - by rewrite length_map, <- Hps, length_map.
  - rewrite map_fmap. apply Forall_fmap, Forall_forall. intros r _.
    unfold judgement_strings. simpl.
    destruct (TestCaseResult.judgement r); set_solver.
  - intros i c Hc. rewrite <- Hps, map_fmap, list_lookup_fmap in Hc.
    destruct (TestGroupResult.tc_results result !! i) as [r|] eqn:Hr;
      [|done].
    exists r. simpl in Hc. split_and!; [done|congruence|].
    by rewrite map_fmap, list_lookup_fmap, Hr.
Qed.

(** C10. A group without test cases is accepted: [execute] returns an
    accepted result with no case result, leaves the world as it is, and the
    score earned is the whole weight of the group. *)
Theorem C10_empty_group_accepted (self : TestGroup Value) ctx w :
  all_test_cases self = [] →
  TestGroup.execute self ctx w = (TestGroupResult.mk self true [], w) ∧
  TestGroupResult.is_accepted (TestGroup.execute self ctx w).1 = true ∧
  TestGroupResult.tc_results (TestGroup.execute self ctx w).1 = [] ∧
  TestGroupResult.score_earned (TestGroup.execute self ctx w).1
    = score_weight self.
Proof.
  intros Hnil. unfold TestGroup.execute, bind. rewrite Hnil. simpl.
  unfold TestGroupResult.score_earned. simpl.
  split_and!; [done..|]. by destruct (score_weight self).
Qed.

(** ** The loop of [TestSuite.execute] *)

#[local] Arguments rich_time : simpl never.
#[local] Arguments console_print : simpl never.

Lemma rich_time_frame w :
  w_mod (rich_time w).2 = w_mod w ∧ w_calls (rich_time w).2 = w_calls w.
Proof. unfold rich_time. done. Qed.

Lemma console_print_frame ctx objects w :
  w_mod (console_print ctx objects w).2 = w_mod w
  ∧ w_calls (console_print ctx objects w).2 = w_calls w.
Proof.
  unfold console_print. by destruct (ApplicationContext.console_quiet ctx).
Qed.

Lemma suite_loop_acc ctx (groups : list (TestGroup Value)) res w :
  TestSuite.execute_loop ctx groups res w =
  let (new, w') := TestSuite.execute_loop ctx groups [] w in
  (res ++ new, w').
Proof.
  revert res w. induction groups as [|g rest IH]; intros res w; simpl.
  - unfold ret. by rewrite app_nil_r.
  - unfold bind.
    destruct (rich_time w) as [now wa].
    destruct (console_print ctx _ wa) as [[] wb].
    destruct (TestGroup.execute g ctx wb) as [r wc].
    destruct (console_print ctx _ wc) as [[] wd].
    rewrite (IH (res ++ _)), (IH [r]).
    destruct (TestSuite.execute_loop ctx rest [] wd) as [new w'].
    by rewrite <- app_assoc.
Qed.

Lemma suite_loop_cons ctx (g : TestGroup Value) rest w :
  TestSuite.execute_loop ctx (g :: rest) [] w =
  let (now, wa) := rich_time w in
  let wb :=
    (console_print ctx
       [now; Str "Grading the question:"; Text (name g) "bold cyan1"] wa).2 in
  let (r, wc) := TestGroup.execute g ctx wb in
  let wd := (console_print ctx [TestGroupResult.rich_message r] wc).2 in
  let (new, w') := TestSuite.execute_loop ctx rest [] wd in
  (r :: new, w').
Proof.
  cbn [TestSuite.execute_loop]. unfold bind.
  destruct (rich_time w) as [now wa].
  destruct (console_print ctx _ wa) as [[] wb]. cbn [snd].
  destruct (TestGroup.execute g ctx wb) as [r wc].
  destruct (console_print ctx _ wc) as [[] wd]. cbn [snd].
  by rewrite suite_loop_acc.
Qed.

Lemma suite_loop_app ctx (l1 l2 : list (TestGroup Value)) res w :
  TestSuite.execute_loop ctx (l1 ++ l2) res w =
  let (r, w1) := TestSuite.execute_loop ctx l1 res w in
  TestSuite.execute_loop ctx l2 r w1.
Proof.
  revert res w. induction l1 as [|g l1 IH]; intros res w; simpl; [done|].
  unfold bind.
  destruct (rich_time w) as [now wa].
  destruct (console_print ctx _ wa) as [[] wb].
  destruct (TestGroup.execute g ctx wb) as [r wc].
  destruct (console_print ctx _ wc) as [[] wd].
  apply IH.
Qed.

Lemma suite_execute_unfold (self : TestSuite Value) ctx w :
  TestSuite.execute self ctx w =
  let (res, w') := TestSuite.execute_loop ctx (test_groups self) [] w in
  (TestSuiteResult.mk res, w').
Proof.
  unfold TestSuite.execute, bind.
  by destruct (TestSuite.execute_loop ctx _ [] w) as [res w'].
Qed.

(** One group result per group, in declared order. *)
Lemma suite_loop_parents ctx (groups : list (TestGroup Value)) w :
  map TestGroupResult.parent (TestSuite.execute_loop ctx groups [] w).1
  = groups.
Proof.
  revert w. induction groups as [|g rest IH]; intros w; [done|].
  rewrite suite_loop_cons.
  destruct (rich_time w) as [now wa]. simpl.
  pose proof (group_execute_parent g ctx
    (console_print ctx
       [now; Str "Grading the question:"; Text (name g) "bold cyan1"] wa).2)
    as Hp.
  destruct (TestGroup.execute g ctx _) as [r wc]. simpl in Hp.
  specialize (IH (console_print ctx [TestGroupResult.rich_message r] wc).2).
  destruct (TestSuite.execute_loop ctx rest [] _) as [new w'].
  simpl in *. by rewrite Hp, IH.
Qed.

(** Group [i] is executed, on the namespace left by the first [i] groups. *)
Lemma suite_loop_iteration ctx (self : TestSuite Value) (i : nat) g w :
  test_groups self !! i = Some g →
  ∃ wi,
    w_mod wi = w_mod (world_before_group ctx self i w) ∧
    w_calls wi = w_calls (world_before_group ctx self i w) ∧
    TestSuiteResult.tg_results (TestSuite.execute self ctx w).1 !! i
    = Some (TestGroup.execute g ctx wi).1.
Proof.
  intros Hg. unfold world_before_group. rewrite suite_execute_unfold.
  pose proof (take_drop_middle _ _ _ Hg) as Hsplit.
  replace (TestSuite.execute_loop ctx (test_groups self) [] w)
    with (TestSuite.execute_loop ctx
            (take i (test_groups self)
             ++ g :: drop (S i) (test_groups self)) [] w)
    by (by rewrite Hsplit).
  rewrite suite_loop_app.
  pose proof (suite_loop_parents ctx (take i (test_groups self)) w) as Hlen.
  apply (f_equal length) in Hlen. rewrite length_map in Hlen.
  destruct (TestSuite.execute_loop ctx (take i _) [] w) as [res w1].
  simpl in Hlen. rewrite length_take_le in Hlen
    by (apply Nat.lt_le_incl, lookup_lt_is_Some; eauto).
  rewrite suite_loop_acc, suite_loop_cons.
  destruct (rich_time w1) as [now wa] eqn:Hrt.
  exists (console_print ctx
            [now; Str "Grading the question:"; Text (name g) "bold cyan1"]
            wa).2.
  destruct (console_print_frame ctx
    [now; Str "Grading the question:"; Text (name g) "bold cyan1"] wa)
    as [-> ->].
  destruct (rich_time_frame w1) as [Hm Hc]. rewrite Hrt in Hm, Hc.
  split_and!; [done..|]. simpl.
  destruct (TestGroup.execute g ctx _) as [r wc].
  destruct (TestSuite.execute_loop ctx (drop (S i) _) [] _) as [new w'].
  simpl. rewrite lookup_app_r by lia. by rewrite Hlen, Nat.sub_diag.
Qed.

(** The first case of a group is always executed. *)
Lemma group_first_case_executed (self : TestGroup Value) ctx w r0 :
  TestGroupResult.tc_results (TestGroup.execute self ctx w).1 !! 0%nat
  = Some r0 →
  TestCaseResult.judgement r0 ≠ skipped.
Proof.
  rewrite group_execute_unfold.
  destruct (all_test_cases self) as [|c rest]; [done|].
  rewrite group_loop_cons. simpl.
  pose proof (case_execute_not_skipped c ctx w) as Hns.
  destruct (TestCase.execute c ctx w) as [r w1].
  destruct (TestGroup.execute_loop ctx rest _ [] w1) as [[a new] w'].
  simpl. by intros [= <-].
Qed.

(** C7. [TestSuite.execute] returns one group result per group, in the
    declared order of the groups.  Every group is executed, on the module
    namespace left by the groups before it, whatever their outcome was; so
    the first case of every group is executed, never skipped. *)
Theorem C7_suite_executes_every_group (self : TestSuite Value) ctx w :
  let result := (TestSuite.execute self ctx w).1 in
  map TestGroupResult.parent (TestSuiteResult.tg_results result)
    = test_groups self ∧
  length (TestSuiteResult.tg_results result) = length (test_groups self) ∧
  (∀ (i : nat) g,
     test_groups self !! i = Some g →
     ∃ wi,
       w_mod wi = w_mod (world_before_group ctx self i w) ∧
       w_calls wi = w_calls (world_before_group ctx self i w) ∧
       TestSuiteResult.tg_results result !! i
       = Some (TestGroup.execute g ctx wi).1) ∧
  (∀ (i : nat) r r0,
     TestSuiteResult.tg_results result !! i = Some r →
     TestGroupResult.tc_results r !! 0%nat = Some r0 →
     TestCaseResult.judgement r0 ≠ skipped).
Proof.
  simpl.
  assert (map TestGroupResult.parent
            (TestSuiteResult.tg_results (TestSuite.execute self ctx w).1)
          = test_groups self) as Hpar.
  { rewrite suite_execute_unfold.
    pose proof (suite_loop_parents ctx (test_groups self) w) as H.
    by destruct (TestSuite.execute_loop ctx _ [] w) as [res w']. }
  split_and!.
  - done.
  - apply (f_equal length) in Hpar. by rewrite length_map in Hpar.
  - intros i g Hg. by apply suite_loop_iteration.
  - intros i r r0 Hr Hr0.
    assert (is_Some (test_groups self !! i)) as [g Hg].
    { apply lookup_lt_is_Some. rewrite <- Hpar, length_map.
      apply lookup_lt_is_Some. eauto. }
    destruct (suite_loop_iteration ctx self i g w Hg) as (wi & _ & _ & Hi).
    rewrite Hr in Hi. injection Hi as ->.
    by eapply group_first_case_executed.
Qed.

(** ** Suite results *)

(** C3. For the result of [TestSuite.execute]: the score earned is the sum
    of the scores earned by the group results, the total weight is the sum
    of the weights of the groups of the suite, and the result is perfect
    exactly when every group result is accepted. *)
Theorem C3_suite_totals (self : TestSuite Value) ctx w :
  let result := (TestSuite.execute self ctx w).1 in
  TestSuiteResult.score_earned result
    = foldr Z.add 0
        (map TestGroupResult.score_earned (TestSuiteResult.tg_results result))
  ∧ TestSuiteResult.total_weight result
    = foldr Z.add 0 (map score_weight (test_groups self))
  ∧ (TestSuiteResult.is_perfect result = true
     ↔ Forall (λ r, TestGroupResult.is_accepted r = true)
              (TestSuiteResult.tg_results result)).
Proof.
  simpl. split_and!.
  - unfold TestSuiteResult.score_earned. apply py_sum_foldr.
  - unfold TestSuiteResult.total_weight. rewrite py_sum_foldr.
    rewrite <- (map_map TestGroupResult.parent score_weight).
    rewrite suite_execute_unfold.
    pose proof (suite_loop_parents ctx (test_groups self) w) as H.
    destruct (TestSuite.execute_loop ctx _ [] w) as [res w'].
    simpl in *. by rewrite H.
  - unfold TestSuiteResult.is_perfect.
    rewrite forallb_forall, Forall_forall.
    split; intros H r Hr; apply H; by apply list_elem_of_In.
Qed.

(** ** Determinism of the report *)

Lemma case_execute_deterministic (c : TestCase Value) ctx1 ctx2 w1 w2 :
  w_mod w1 = w_mod w2 →
  TestCaseResult.judgement (TestCase.execute c ctx1 w1).1
  = TestCaseResult.judgement (TestCase.execute c ctx2 w2).1
  ∧ w_mod (TestCase.execute c ctx1 w1).2
    = w_mod (TestCase.execute c ctx2 w2).2.
Proof.
  intros Hm. rewrite !case_execute_unfold.
  unfold TestCase.try_body, TestCase.call_wrapped_func. rewrite Hm.
  destruct (TestCase.resolve_args c (w_mod w2) _) as [args|e]; [|done].
  by destruct (fn_call _ args (w_mod w2)) as [[v|e] m'].
Qed.

Lemma group_loop_deterministic (cases : list (TestCase Value))
    ctx1 ctx2 acc w1 w2 :
  force_grade_all ctx1 = force_grade_all ctx2 →
  w_mod w1 = w_mod w2 →
  let '(a1, res1, w1') := TestGroup.execute_loop ctx1 cases acc [] w1 in
  let '(a2, res2, w2') := TestGroup.execute_loop ctx2 cases acc [] w2 in
  a1 = a2 ∧
  map TestCaseResult.judgement res1 = map TestCaseResult.judgement res2 ∧
  w_mod w1' = w_mod w2'.
Proof.
  intros Hf. revert acc w1 w2.
  induction cases as [|c rest IH]; intros acc w1 w2 Hm; [done|].
  rewrite !group_loop_cons, <- Hf.
  destruct (negb acc && negb (force_grade_all ctx1)).
  - specialize (IH acc w1 w2 Hm).
    destruct (TestGroup.execute_loop ctx1 rest acc [] w1) as [[a1 r1] w1'].
    destruct (TestGroup.execute_loop ctx2 rest acc [] w2) as [[a2 r2] w2'].
    destruct IH as (-> & Hj & Hw). simpl. by rewrite Hj.
  - destruct (case_execute_deterministic c ctx1 ctx2 w1 w2 Hm) as [Hj Hw].
    destruct (TestCase.execute c ctx1 w1) as [ra wa].
    destruct (TestCase.execute c ctx2 w2) as [rb wb].
    simpl in Hj, Hw.
    assert (TestCaseResult.is_accepted ra = TestCaseResult.is_accepted rb)
      as Ha by (unfold TestCaseResult.is_accepted; by rewrite Hj).
    rewrite <- Ha.
    specialize (IH (acc && TestCaseResult.is_accepted ra) wa wb Hw).
    destruct (TestGroup.execute_loop ctx1 rest _ [] wa) as [[a1 r1] w1'].
    destruct (TestGroup.execute_loop ctx2 rest _ [] wb) as [[a2 r2] w2'].
    destruct IH as (-> & Hjs & Hws). simpl. by rewrite Hj, Hjs.
Qed.

Lemma group_execute_deterministic (g : TestGroup Value) ctx1 ctx2 w1 w2 :
  force_grade_all ctx1 = force_grade_all ctx2 →
  w_mod w1 = w_mod w2 →
  same_report (TestGroup.execute g ctx1 w1).1 (TestGroup.execute g ctx2 w2).1
  ∧ w_mod (TestGroup.execute g ctx1 w1).2
    = w_mod (TestGroup.execute g ctx2 w2).2.
Proof.
  intros Hf Hm. rewrite !group_execute_unfold.
  pose proof (group_loop_deterministic (all_test_cases g)
                ctx1 ctx2 true w1 w2 Hf Hm) as H.
  destruct (TestGroup.execute_loop ctx1 _ true [] w1) as [[a1 r1] w1'].
  destruct (TestGroup.execute_loop ctx2 _ true [] w2) as [[a2 r2] w2'].
  destruct H as (-> & Hj & Hw). by repeat split.
Qed.

Lemma same_report_serialize (r1 r2 : TestGroupResult.t Value) :
  same_report r1 r2 →
  TestGroupResult.serialize r1 = TestGroupResult.serialize r2
  ∧ TestGroupResult.score_earned r1 = TestGroupResult.score_earned r2.
Proof.
  intros (Hp & Ha & Hj).
  assert (map (λ r, PyStr (judgement_str (TestCaseResult.judgement r)))
              (TestGroupResult.tc_results r1)
          = map (λ r, PyStr (judgement_str (TestCaseResult.judgement r)))
                (TestGroupResult.tc_results r2)) as Hsub.
  { rewrite <- !(map_map TestCaseResult.judgement
                   (λ j, PyStr (judgement_str j))).
    by rewrite Hj. }
  unfold TestGroupResult.serialize, TestGroupResult.score_earned.
  by rewrite Hp, Ha, Hsub.
Qed.

Lemma suite_loop_deterministic (groups : list (TestGroup Value))
    ctx1 ctx2 w1 w2 :
  force_grade_all ctx1 = force_grade_all ctx2 →
  w_mod w1 = w_mod w2 →
  Forall2 same_report (TestSuite.execute_loop ctx1 groups [] w1).1
                      (TestSuite.execute_loop ctx2 groups [] w2).1
  ∧ w_mod (TestSuite.execute_loop ctx1 groups [] w1).2
    = w_mod (TestSuite.execute_loop ctx2 groups [] w2).2.
Proof.
  intros Hf. revert w1 w2.
  induction groups as [|g rest IH]; intros w1 w2 Hm.
  - split; [constructor|done].
  - rewrite !suite_loop_cons.
    destruct (rich_time_frame w1) as [Ha1 _].
    destruct (rich_time_frame w2) as [Ha2 _].
    destruct (rich_time w1) as [now1 wa1].
    destruct (rich_time w2) as [now2 wa2]. cbn [snd] in Ha1, Ha2.
    cbn zeta.
    set (wb1 := (console_print ctx1 _ wa1).2).
    set (wb2 := (console_print ctx2 _ wa2).2).
    assert (w_mod wb1 = w_mod wb2) as Hb.
    { unfold wb1, wb2.
      rewrite (proj1 (console_print_frame ctx1 _ wa1)).
      rewrite (proj1 (console_print_frame ctx2 _ wa2)). congruence. }
    destruct (group_execute_deterministic g ctx1 ctx2 wb1 wb2 Hf Hb)
      as [Hsame Hc].
    destruct (TestGroup.execute g ctx1 wb1) as [r1 wc1].
    destruct (TestGroup.execute g ctx2 wb2) as [r2 wc2].
    cbn [fst snd] in Hsame, Hc.
    set (wd1 := (console_print ctx1 _ wc1).2).
    set (wd2 := (console_print ctx2 _ wc2).2).
    assert (w_mod wd1 = w_mod wd2) as Hd.
    { unfold wd1, wd2.
      rewrite (proj1 (console_print_frame ctx1 _ wc1)).
      by rewrite (proj1 (console_print_frame ctx2 _ wc2)). }
    specialize (IH wd1 wd2 Hd).
    destruct (TestSuite.execute_loop ctx1 rest [] wd1) as [new1 w1'].
    destruct (TestSuite.execute_loop ctx2 rest [] wd2) as [new2 w2'].
    cbn [fst snd] in *. destruct IH as [IH1 IH2].
    split; [by constructor|done].
Qed.

Lemma same_reports_serialize (l1 l2 : list (TestGroupResult.t Value)) :
  Forall2 same_report l1 l2 →
  TestSuiteResult.serialize (TestSuiteResult.mk l1)
  = TestSuiteResult.serialize (TestSuiteResult.mk l2).
Proof.
  intros H12.
  assert (map TestGroupResult.serialize l1 = map TestGroupResult.serialize l2
          ∧ map TestGroupResult.score_earned l1
            = map TestGroupResult.score_earned l2
          ∧ map (λ r, score_weight (TestGroupResult.parent r)) l1
            = map (λ r, score_weight (TestGroupResult.parent r)) l2)
    as (Hs & He & Hw).
  { induction H12 as [|r1 r2 l1 l2 Hr _ (IH1 & IH2 & IH3)]; [done|].
    destruct (same_report_serialize r1 r2 Hr) as [Hser Hsc].
    destruct Hr as (Hp & _ & _).
    simpl. by rewrite Hser, Hsc, Hp, IH1, IH2, IH3. }
  unfold TestSuiteResult.serialize, TestSuiteResult.total_weight,
    TestSuiteResult.score_earned. simpl.
  by rewrite Hs, He, Hw.
Qed.

(** C9. Two executions of a suite that start from the same module namespace,
    under run configurations with the same [force_grade_all], give the same
    serialised report, whatever the console, the clock, the call log and the
    verbosity are; and they leave the same namespace.  The wrapped functions
    are deterministic: they are functions of their arguments and of the
    namespace. *)
Theorem C9_report_deterministic (self : TestSuite Value) ctx1 ctx2 w1 w2 :
  force_grade_all ctx1 = force_grade_all ctx2 →
  w_mod w1 = w_mod w2 →
  TestSuiteResult.serialize (TestSuite.execute self ctx1 w1).1
  = TestSuiteResult.serialize (TestSuite.execute self ctx2 w2).1
  ∧ w_mod (TestSuite.execute self ctx1 w1).2
    = w_mod (TestSuite.execute self ctx2 w2).2.
Proof.
  intros Hf Hm. rewrite !suite_execute_unfold.
  destruct (suite_loop_deterministic (test_groups self) ctx1 ctx2 w1 w2 Hf Hm)
    as [Hsame Hw].
  destruct (TestSuite.execute_loop ctx1 _ [] w1) as [res1 w1'].
  destruct (TestSuite.execute_loop ctx2 _ [] w2) as [res2 w2'].
  cbn [fst snd] in *. split; [|done]. by apply same_reports_serialize.
Qed.

(** ** Construction of scenarios and cases *)

Lemma forallb_filter_id {A} (f : A → bool) (l : list A) :
  forallb f l = true → List.filter f l = l.
Proof.
  induction l as [|x l IH]; simpl; [done|].
  intros [Hx Hl]%andb_prop. rewrite Hx. by rewrite IH.
Qed.

Lemma forallb_false_Exists {A} (f : A → bool) (l : list A) :
  forallb f l = false ↔ Exists (λ x, f x = false) l.
Proof.
  induction l as [|x l IH]; simpl.
  - split; [done|]. by intros H%Exists_nil.
  - rewrite Exists_cons, andb_false_iff, IH. done.
Qed.

Lemma field_ids_length (self : TestScenario Value) :
  length (TestScenario.field_ids self)
  = length (List.filter is_Param (exec_args self)).
Proof.
  unfold TestScenario.field_ids.
  induction (exec_args self) as [|a l IH]; [done|].
  destruct a; simpl; [exact IH|f_equal; exact IH].
Qed.

(** C5. [TestScenario.create] raises, when the scenario is built, exactly
    when the number of positional parameters of the wrapped function differs
    from the number of argument sources or some parameter is not plain
    positional; otherwise it returns the scenario of the function and the
    sources.  [TestScenario.data] raises, when the case is built, exactly
    when the number of values differs from the number of [Param] sources of
    the scenario; otherwise it returns a case of this scenario.  The errors
    are a [TypeError] and a [ValueError]. *)
Theorem C5_construction_arity_checks
    (args : list ExecArg) (func : PyFunc Value)
    (self : TestScenario Value) (values : list Value) :
  let positional_count :=
    length (List.filter is_positional (fn_parameters func)) in
  let param_sources := length (List.filter is_Param (exec_args self)) in
  (is_raised (TestScenario.create args func) = true
   ↔ positional_count ≠ length args
     ∨ Exists (λ fp, is_positional fp = false) (fn_parameters func)) ∧
  (is_raised (TestScenario.create args func) = false
   → TestScenario.create args func = Returned (mkTestScenario func args)) ∧
  (∀ e, TestScenario.create args func = Raised e → exc_type e = "TypeError") ∧
  (is_raised (TestScenario.data self values) = true
   ↔ length values ≠ param_sources) ∧
  (is_raised (TestScenario.data self values) = false
   → ∃ tc, TestScenario.data self values = Returned tc
           ∧ test_scenario tc = self) ∧
  (∀ e, TestScenario.data self values = Raised e → exc_type e = "ValueError").
Proof.
  simpl. split_and!.
  - unfold TestScenario.create. fold is_positional.
    change (λ fp, is_positional fp) with is_positional.
    destruct (forallb is_positional (fn_parameters func)) eqn:Hall; simpl.
    + rewrite (forallb_filter_id _ _ Hall).
      assert (¬ Exists (λ fp, is_positional fp = false) (fn_parameters func))
        as Hnex by (rewrite <- forallb_false_Exists; congruence).
      repeat case_bool_decide; simpl;
        (split; [intros ?; try done; left; lia
               |intros [?|?]; [try done; lia|by destruct Hnex]]).
    + split; [|done]. intros _. right. by apply forallb_false_Exists.
  - unfold TestScenario.create.
    destruct (negb _); [done|]. repeat case_bool_decide; done.
  - intros e. unfold TestScenario.create.
    destruct (negb _); [by intros [= <-]|].
    repeat case_bool_decide; try done; by intros [= <-].
  - unfold TestScenario.data. rewrite <- field_ids_length.
    case_bool_decide; simpl; split; done.
  - unfold TestScenario.data. case_bool_decide; [done|]. eauto.
  - intros e. unfold TestScenario.data.
    case_bool_decide; [by intros [= <-]|done].
Qed.

(** ** The counter of skipped cases *)

(** [skipped_testcases] counts the results that are [None]; no result is, so
    the counter is 0 for every group result. *)
Lemma skipped_testcases_zero (r : TestGroupResult.t Value) :
  TestGroupResult.skipped_testcases r = 0.
Proof.
  unfold TestGroupResult.skipped_testcases.
  induction (TestGroupResult.tc_results r) as [|x l IH]; [done|].
  cbn [map]. by rewrite py_sum_cons, IH.
Qed.

End properties.

(** * The instance, evaluated *)

(** The scenario and the cases of the instance are what [create] and [data]
    return. *)
Example count_even_scenario_created :
  TestScenario.create count_even_sources test_count_even
  = Returned count_even_scenario
  ∧ TestScenario.data count_even_scenario [IntList [1; 2; 3; 4; 5]; IntValue 2]
    = Returned case_expect_2
  ∧ TestScenario.data count_even_scenario [IntList [1; 2; 3; 4; 5]; IntValue 3]
    = Returned case_expect_3.
Proof. repeat split; reflexivity. Qed.

(** A routine with two positional parameters and one source, and three
    values for two [Param] slots, fail at construction. *)
Example arity_mismatch_raises :
  is_raised (TestScenario.create [Param 1]
               (mkPyFunc (Value := ExamValue) "two_params"
                  [mkInspectParameter "a" POSITIONAL_OR_KEYWORD;
                   mkInspectParameter "b" POSITIONAL_OR_KEYWORD]
                  (fun _ m => (Returned NoneValue, m)))) = true
  ∧ is_raised (TestScenario.data count_even_scenario
                 [IntValue 1; IntValue 2; IntValue 3]) = true.
Proof. split; reflexivity. Qed.

(** The two cases: accepted, and a mistake. *)
Example count_even_cases :
  TestCaseResult.judgement (TestCase.execute case_expect_2 ctx_default
                              exam_world).1 = accepted
  ∧ TestCaseResult.judgement (TestCase.execute case_expect_3 ctx_default
                                exam_world).1 = mistake.
Proof. split; reflexivity. Qed.

(** A group of weight 10 whose first case fails: without [force_grade_all]
    the second case is skipped and the wrapped function is called once; with
    it the second case is executed; the score is 0 both ways. *)
Example group_fail_first_results :
  let r := (TestGroup.execute group_fail_first ctx_default exam_world).1 in
  let w' := (TestGroup.execute group_fail_first ctx_default exam_world).2 in
  let rf := (TestGroup.execute group_fail_first ctx_force exam_world).1 in
  map TestCaseResult.judgement (TestGroupResult.tc_results r)
    = [mistake; skipped]
  ∧ TestGroupResult.score_earned r = 0
  ∧ length (w_calls w') = 1%nat
  ∧ map TestCaseResult.judgement (TestGroupResult.tc_results rf)
    = [mistake; accepted]
  ∧ TestGroupResult.score_earned rf = 0.
Proof. repeat split; reflexivity. Qed.

(** Two groups of weights 10 and 20, the second with one mistake. *)
Example suite_10_20_totals :
  let r := (TestSuite.execute suite_10_20 ctx_default exam_world).1 in
  TestSuiteResult.score_earned r = 10
  ∧ TestSuiteResult.total_weight r = 30
  ∧ TestSuiteResult.is_perfect r = false.
Proof. repeat split; reflexivity. Qed.

(** The cascade at the group whose first case fails: the second result is
    skipped and its iteration leaves the world untouched. *)
Lemma C1_skip_cascade_witness :
  force_grade_all ctx_default = false
  ∧ (let result :=
       (TestGroup.execute group_fail_first ctx_default exam_world).1 in
     (∀ (i j : nat) ri rj,
        (j < i)%nat →
        TestGroupResult.tc_results result !! j = Some rj →
        TestCaseResult.judgement rj = mistake →
        TestGroupResult.tc_results result !! i = Some ri →
        TestCaseResult.judgement ri = skipped) ∧
     (∀ (i : nat) ri,
        TestGroupResult.tc_results result !! i = Some ri →
        TestCaseResult.judgement ri = skipped →
        world_before_case ctx_default group_fail_first (S i) exam_world
        = world_before_case ctx_default group_fail_first i exam_world
        ∧ w_calls
            (world_before_case ctx_default group_fail_first (S i) exam_world)
          = w_calls
              (world_before_case ctx_default group_fail_first i exam_world))).
Proof.
  split; [reflexivity|].
  apply (C1_skip_cascade group_fail_first ctx_default exam_world).
  reflexivity.
Defined.

(** C2 with "if and only if" for every weight does not hold: on a failing
    group of weight 0 the score earned, 0, is the weight of the group
    although a case result is a mistake. *)
Lemma C2_counterexample :
  ¬ (let result :=
       (TestGroup.execute group_weight_0 ctx_default exam_world).1 in
     (TestGroupResult.score_earned result = 0
      ∨ TestGroupResult.score_earned result = score_weight group_weight_0)
     ∧ (TestGroupResult.score_earned result = score_weight group_weight_0
        ↔ Forall (λ r, TestCaseResult.judgement r = accepted)
                 (TestGroupResult.tc_results result))).
Proof.
  intros [_ [H _]].
  specialize (H eq_refl).
  apply Forall_inv in H. discriminate H.
Qed.

(** C6, at the group whose first case fails: the results are a mistake and a
    skipped case, one result is [skipped], and [skipped_testcases] is 0. *)
Theorem C6_skipped_testcases_at_failing_input :
  let result :=
    (TestGroup.execute group_fail_first ctx_default exam_world).1 in
  map TestCaseResult.judgement (TestGroupResult.tc_results result)
    = [mistake; skipped]
  ∧ length (List.filter
              (λ r, bool_decide (TestCaseResult.judgement r = skipped))
              (TestGroupResult.tc_results result)) = 1%nat
  ∧ TestGroupResult.skipped_testcases result = 0.
Proof. repeat split; reflexivity. Qed.

(** Two runs of a suite one after the other, the second under a verbose
    configuration and on the world the first one left: the namespace is the
    one the first run started from, and the reports are the same. *)
Lemma C9_report_deterministic_witness :
  let w1 := exam_world in
  let w2 := (TestSuite.execute suite_fail_then_pass ctx_default exam_world).2 in
  (force_grade_all ctx_default = force_grade_all ctx_verbose
   ∧ w_mod w1 = w_mod w2)
  ∧ (TestSuiteResult.serialize
       (TestSuite.execute suite_fail_then_pass ctx_default w1).1
     = TestSuiteResult.serialize
         (TestSuite.execute suite_fail_then_pass ctx_verbose w2).1
     ∧ w_mod (TestSuite.execute suite_fail_then_pass ctx_default w1).2
       = w_mod (TestSuite.execute suite_fail_then_pass ctx_verbose w2).2).
Proof.
  split; [split; reflexivity|].
  apply (C9_report_deterministic suite_fail_then_pass
           ctx_default ctx_verbose); reflexivity.
Defined.

(** The empty group of the instance earns its whole weight. *)
Lemma C10_empty_group_accepted_witness :
  all_test_cases group_empty = []
  ∧ (TestGroup.execute group_empty ctx_default exam_world
     = (TestGroupResult.mk group_empty true [], exam_world)
     ∧ TestGroupResult.is_accepted
         (TestGroup.execute group_empty ctx_default exam_world).1 = true
     ∧ TestGroupResult.tc_results
         (TestGroup.execute group_empty ctx_default exam_world).1 = []
     ∧ TestGroupResult.score_earned
         (TestGroup.execute group_empty ctx_default exam_world).1
       = score_weight group_empty).
Proof.
  split; [reflexivity|].
  apply (C10_empty_group_accepted group_empty ctx_default exam_world).
  reflexivity.
Defined.

(** * Further properties of the engine *)

Section binding.
Context {Value : Type}.

Implicit Types (w : World Value) (ctx : ApplicationContext).

(** ** What [data] binds and what [get_value] reads back *)

Lemma py_dict_step (ks : list nat) (vs : list Value) (m : gmap nat Value)
    (k : nat) (v : Value) :
  fold_left (λ m p, <[p.1 := p.2]> m) (zip (k :: ks) (v :: vs)) m
  = fold_left (λ m p, <[p.1 := p.2]> m) (zip ks vs) (<[k := v]> m).
Proof. reflexivity. Qed.

Lemma py_dict_not_later (ks : list nat) (vs : list Value)
    (m : gmap nat Value) (ident : nat) :
  ident ∉ ks →
  fold_left (λ m p, <[p.1 := p.2]> m) (zip ks vs) m !! ident = m !! ident.
Proof.
  revert vs m. induction ks as [|k ks IH]; intros vs m Hin; [done|].
  destruct vs as [|v vs]; [done|].
  rewrite py_dict_step, IH by set_solver.
  apply lookup_insert_ne. set_solver.
Qed.

Lemma py_dict_last_wins (ks : list nat) (vs : list Value)
    (m : gmap nat Value) (i : nat) (ident : nat) (v : Value) :
  ks !! i = Some ident →
  vs !! i = Some v →
  ident ∉ drop (S i) ks →
  fold_left (λ m p, <[p.1 := p.2]> m) (zip ks vs) m !! ident = Some v.
Proof.
  revert vs m i. induction ks as [|k ks IH]; intros vs m i Hk Hv Hlater;
    [done|].
  destruct vs as [|v0 vs]; [done|].
  rewrite py_dict_step. destruct i as [|i]; simplify_eq/=.
  - rewrite py_dict_not_later by done. apply lookup_insert_eq.
  - by eapply IH.
Qed.

Lemma py_dict_bound (ks : list nat) (vs : list Value)
    (m : gmap nat Value) (ident : nat) :
  length ks = length vs →
  ident ∈ ks →
  is_Some (fold_left (λ m p, <[p.1 := p.2]> m) (zip ks vs) m !! ident).
Proof.
  revert vs m. induction ks as [|k ks IH]; intros vs m Hlen Hin.
  - by apply not_elem_of_nil in Hin.
  - destruct vs as [|v vs]; [done|]. rewrite py_dict_step.
    destruct (decide (ident ∈ ks)) as [Hks|Hks].
    + apply IH; [by injection Hlen|done].
    + rewrite py_dict_not_later by done.
      apply elem_of_cons in Hin as [->|?]; [|done].
      rewrite lookup_insert_eq. eauto.
Qed.

Lemma data_returned (self : TestScenario Value) (values : list Value) tc :
  TestScenario.data self values = Returned tc →
  length values = length (TestScenario.field_ids self)
  ∧ tc = mkTestCase self (py_dict (zip (TestScenario.field_ids self) values)).
Proof.
  unfold TestScenario.data. case_bool_decide as Hlen; [done|].
  intros [= <-]. split; [|done].
  destruct (decide (length values = length (TestScenario.field_ids self)));
    [done|]. by destruct Hlen.
Qed.

Lemma field_ids_elem (self : TestScenario Value) (ident : nat) :
  ident ∈ TestScenario.field_ids self ↔ Param ident ∈ exec_args self.
Proof.
  unfold TestScenario.field_ids. rewrite list_elem_of_omap. split.
  - intros (a & Ha & Hsome). destruct a; by simplify_eq.
  - intros Ha. exists (Param ident). done.
Qed.

(** X1. A case built by [data] binds the values to the [Param] sources by
    position: the [k]-th [Param] source of the scenario resolves to the
    [k]-th value, on any module, provided the same [Param] object does not
    occur again later in the scenario.  (A [Param] object that serves two
    positions is bound once, to the value of its last position.) *)
Theorem data_get_value_roundtrip (self : TestScenario Value)
    (values : list Value) tc (k ident : nat) (mod_ : gmap string Value) :
  TestScenario.data self values = Returned tc →
  TestScenario.field_ids self !! k = Some ident →
  ident ∉ drop (S k) (TestScenario.field_ids self) →
  ∃ v, values !! k = Some v
       ∧ params tc !! ident = Some v
       ∧ ExecArg.get_value (Param ident) tc mod_ = Returned v.
Proof.
  intros [Hlen ->]%data_returned Hk Hlater.
  assert (is_Some (values !! k)) as [v Hv].
  { apply lookup_lt_is_Some. rewrite Hlen. apply lookup_lt_is_Some. eauto. }
  exists v. split; [done|].
  assert (py_dict (zip (TestScenario.field_ids self) values) !! ident
          = Some v) as Hb by (by eapply py_dict_last_wins).
  split; [done|]. simpl. by rewrite Hb.
Qed.

(** Resolution of the sources of a case built by [data]. *)
Lemma resolve_args_data (self : TestScenario Value) (values : list Value) tc
    (mod_ : gmap string Value) (srcs : list ExecArg) :
  TestScenario.data self values = Returned tc →
  srcs ⊆ exec_args self →
  match TestCase.resolve_args tc mod_ srcs with
  | Returned xs =>
      length xs = length srcs
      ∧ ∀ n, ModuleItem n ∈ srcs → is_Some (mod_ !! n)
  | Raised e =>
      ∃ n, ModuleItem n ∈ srcs ∧ mod_ !! n = None
           ∧ e = mkExn "AttributeError" n
  end.
Proof.
  intros Hd. pose proof (data_returned _ _ _ Hd) as [Hlen ->].
  induction srcs as [|a srcs IH]; intros Hsub.
  - simpl. split; [done|]. intros n Hn. by apply not_elem_of_nil in Hn.
  - assert (srcs ⊆ exec_args self) as Hsub' by set_solver.
    specialize (IH Hsub'). simpl.
    destruct a as [n0|ident]; simpl.
    + destruct (mod_ !! n0) as [v|] eqn:Hn0.
      * destruct (TestCase.resolve_args _ mod_ srcs) as [xs|e].
        -- destruct IH as [IHl IHm]. split; [simpl; by rewrite IHl|].
           intros n [[= ->]|Hn]%elem_of_cons; [by rewrite Hn0|by apply IHm].
        -- destruct IH as (n & Hn & Hnone & ->).
           exists n. split_and!; [set_solver|done..].
      * exists n0. split_and!; [set_solver|done..].
    + assert (is_Some (py_dict (zip (TestScenario.field_ids self) values)
                         !! ident)) as [v Hv].
      { apply py_dict_bound; [done|].
        apply field_ids_elem. set_solver. }
      rewrite Hv.
      destruct (TestCase.resolve_args _ mod_ srcs) as [xs|e].
      * destruct IH as [IHl IHm]. split; [simpl; by rewrite IHl|].
        intros n [[=]|Hn]%elem_of_cons. by apply IHm.
      * destruct IH as (n & Hn & Hnone & ->).
        exists n. split_and!; [set_solver|done..].
Qed.

(** X2. A case built by [data] never fails on a [Param] source (no
    [KeyError]): the resolution of its arguments succeeds exactly when the
    module defines every [ModuleItem] name of the scenario, and it then
    yields one value per source; otherwise it raises the [AttributeError] of
    a name the module does not define. *)
Theorem data_case_resolution (self : TestScenario Value)
    (values : list Value) tc (mod_ : gmap string Value) :
  TestScenario.data self values = Returned tc →
  let resolved := TestCase.resolve_args tc mod_ (exec_args self) in
  (is_raised resolved = false
   ↔ ∀ n, ModuleItem n ∈ exec_args self → is_Some (mod_ !! n)) ∧
  (∀ xs, resolved = Returned xs → length xs = length (exec_args self)) ∧
  (∀ e, resolved = Raised e →
     ∃ n, ModuleItem n ∈ exec_args self ∧ mod_ !! n = None
          ∧ e = mkExn "AttributeError" n).
Proof.
  intros Hd. simpl.
  pose proof (resolve_args_data self values tc mod_ (exec_args self) Hd)
    as H.
  specialize (H (reflexivity _)).
  destruct (TestCase.resolve_args tc mod_ (exec_args self)) as [xs|e].
  - destruct H as [Hl Hm]. split_and!; [done| |done].
    by intros xs' [= <-].
  - destruct H as (n & Hn & Hnone & ->). split_and!.
    + split; [done|]. intros Hall. destruct (Hall n Hn) as [v Hv].
      congruence.
    + done.
    + intros e [= <-]. eauto.
Qed.

Lemma create_returned (srcs : list ExecArg) (func : PyFunc Value) s :
  TestScenario.create srcs func = Returned s →
  s = mkTestScenario func srcs
  ∧ length (fn_parameters func) = length srcs
  ∧ Forall (λ fp, kind fp ∈ POSITIONAL_ARGS) (fn_parameters func).
Proof.
  unfold TestScenario.create.
  destruct (forallb _ (fn_parameters func)) eqn:Hall; simpl; [|done].
  repeat case_bool_decide; try done. intros [= <-].
  split_and!; [done|lia|].
  apply Forall_forall. intros fp Hfp.
  rewrite forallb_forall in Hall.
  specialize (Hall fp (proj1 (list_elem_of_In _ _) Hfp)).
  by apply bool_decide_eq_true in Hall.
Qed.

(** X3. Scenario made by [create], case made by [data], module that defines
    every [ModuleItem] name of the scenario: [execute] calls the wrapped
    function exactly once, with as many arguments as the function declares
    parameters, and the judgement is [accepted] if the call returns and
    [mistake] if it raises. *)
Theorem created_case_calls_function_once (srcs : list ExecArg)
    (func : PyFunc Value) s (values : list Value) tc ctx w :
  TestScenario.create srcs func = Returned s →
  TestScenario.data s values = Returned tc →
  (∀ n, ModuleItem n ∈ srcs → is_Some (w_mod w !! n)) →
  let r := (TestCase.execute tc ctx w).1 in
  let w' := (TestCase.execute tc ctx w).2 in
  ∃ xs,
    length xs = length (fn_parameters func) ∧
    w_calls w' = w_calls w ++ [(fn_name func, xs)] ∧
    w_mod w' = (fn_call func xs (w_mod w)).2 ∧
    TestCaseResult.judgement r
    = (if is_raised (fn_call func xs (w_mod w)).1 then mistake else accepted).
Proof.
  intros Hc Hd Hmod. simpl.
  destruct (create_returned _ _ _ Hc) as (-> & Hlen & _).
  destruct (data_case_resolution _ values tc (w_mod w) Hd) as (Hok & Hl & _).
  simpl in Hok, Hl.
  pose proof (data_returned _ _ _ Hd) as [_ ->].
  rewrite case_execute_unfold. unfold TestCase.try_body. simpl.
  destruct (TestCase.resolve_args _ (w_mod w) srcs) as [xs|e] eqn:Hres.
  - exists xs. unfold TestCase.call_wrapped_func. simpl.
    rewrite (Hl xs eq_refl), Hlen.
    by destruct (fn_call func xs (w_mod w)) as [[v|e] m'].
  - destruct Hok as [_ Hok]. by specialize (Hok Hmod).
Qed.


End binding.

Section cascade.
Context {Value : Type}.

Implicit Types (w : World Value) (ctx : ApplicationContext).

(** ** [force_grade_all] *)

(** X5. With [force_grade_all] every case of a group is executed, none is
    skipped: result [i] is the result of executing case [i] in the world
    left by the cases before it, also after a mistake. *)
Theorem force_grade_all_executes_every_case (self : TestGroup Value) ctx w
    (i : nat) c :
  force_grade_all ctx = true →
  all_test_cases self !! i = Some c →
  let wi := world_before_case ctx self i w in
  TestGroupResult.tc_results (TestGroup.execute self ctx w).1 !! i
  = Some (TestCase.execute c ctx wi).1
  ∧ world_before_case ctx self (S i) w = (TestCase.execute c ctx wi).2
  ∧ TestCaseResult.judgement (TestCase.execute c ctx wi).1 ≠ skipped.
Proof.
  intros Hf Hc. simpl.
  pose proof (group_loop_iteration ctx self i c w Hc) as Hit.
  unfold world_before_case at 1 3 4.
  destruct (TestGroup.execute_loop ctx (take i _) true [] w)
    as [[a res] w1].
  rewrite Hf, andb_false_r in Hit. simpl in *.
  destruct Hit as [Hres Hw]. split_and!; [done..|].
  apply case_execute_not_skipped.
Qed.

Lemma group_loop_flag_any_ctx (cases : list (TestCase Value))
    ctx1 ctx2 acc w1 w2 :
  w_mod w1 = w_mod w2 →
  (TestGroup.execute_loop ctx1 cases acc [] w1).1.1
  = (TestGroup.execute_loop ctx2 cases acc [] w2).1.1.
Proof.
  revert acc w1 w2.
  induction cases as [|c rest IH]; intros acc w1 w2 Hm; [done|].
  destruct acc.
  - rewrite !group_loop_cons. simpl.
    destruct (case_execute_deterministic c ctx1 ctx2 w1 w2 Hm) as [Hj Hw].
    destruct (TestCase.execute c ctx1 w1) as [ra wa].
    destruct (TestCase.execute c ctx2 w2) as [rb wb].
    simpl in Hj, Hw.
    assert (TestCaseResult.is_accepted ra = TestCaseResult.is_accepted rb)
      as Ha by (unfold TestCaseResult.is_accepted; by rewrite Hj).
    rewrite <- Ha.
    specialize (IH (TestCaseResult.is_accepted ra) wa wb Hw).
    destruct (TestGroup.execute_loop ctx1 rest _ [] wa) as [[a1 r1] w1'].
    destruct (TestGroup.execute_loop ctx2 rest _ [] wb) as [[a2 r2] w2'].
    done.
  - pose proof (group_loop_flag ctx1 (c :: rest) false w1) as H1.
    pose proof (group_loop_flag ctx2 (c :: rest) false w2) as H2.
    destruct (TestGroup.execute_loop ctx1 _ false [] w1) as [[a1 r1] w1'].
    destruct (TestGroup.execute_loop ctx2 _ false [] w2) as [[a2 r2] w2'].
    simpl in *. congruence.
Qed.

(** X6. Whether a group is accepted, and so the score it earns, does not
    depend on the run configuration: two executions of a group from the same
    module namespace agree on them, with or without [force_grade_all] and at
    any verbosity. *)
Theorem group_score_independent_of_ctx (self : TestGroup Value)
    ctx1 ctx2 w1 w2 :
  w_mod w1 = w_mod w2 →
  TestGroupResult.is_accepted (TestGroup.execute self ctx1 w1).1
  = TestGroupResult.is_accepted (TestGroup.execute self ctx2 w2).1
  ∧ TestGroupResult.score_earned (TestGroup.execute self ctx1 w1).1
    = TestGroupResult.score_earned (TestGroup.execute self ctx2 w2).1.
Proof.
  intros Hm.
  pose proof (group_loop_flag_any_ctx (all_test_cases self)
                ctx1 ctx2 true w1 w2 Hm) as Hflag.
  unfold TestGroupResult.score_earned.
  rewrite !group_execute_parent. rewrite !group_execute_unfold.
  destruct (TestGroup.execute_loop ctx1 _ true [] w1) as [[a1 r1] w1'].
  destruct (TestGroup.execute_loop ctx2 _ true [] w2) as [[a2 r2] w2'].
  simpl in *. by rewrite Hflag.
Qed.

(** ** The shape of the results of a group *)

Lemma group_loop_shape ctx (cases : list (TestCase Value)) w :
  force_grade_all ctx = false →
  ∀ (i : nat) ri,
    (TestGroup.execute_loop ctx cases true [] w).1.2 !! i = Some ri →
    (TestCaseResult.judgement ri = mistake →
     ∀ (j : nat) rj, (j < i)%nat →
       (TestGroup.execute_loop ctx cases true [] w).1.2 !! j = Some rj →
       TestCaseResult.judgement rj = accepted) ∧
    (TestCaseResult.judgement ri = skipped →
     ∃ (j : nat) rj, (j < i)%nat ∧
       (TestGroup.execute_loop ctx cases true [] w).1.2 !! j = Some rj ∧
       TestCaseResult.judgement rj = mistake).
Proof.
  intros Hf. revert w.
  induction cases as [|c rest IH]; intros w i ri; [done|].
  rewrite group_loop_cons. simpl.
  pose proof (case_execute_accepted_or_mistake c ctx w) as Hr.
  destruct (TestCase.execute c ctx w) as [r w1]. simpl in Hr.
  destruct Hr as [[Hj Ha]|[Hj Ha]]; rewrite Ha.
  - specialize (IH w1).
    destruct (TestGroup.execute_loop ctx rest true [] w1) as [[a new] w'].
    simpl in *. destruct i as [|i]; simpl.
    + intros [= <-]. split; [intros _ j rj Hlt; lia|congruence].
    + intros Hi. destruct (IH i ri Hi) as [IHm IHs]. split.
      * intros Hm [|j] rj Hlt; simpl; [by intros [= <-]|].
        apply IHm; [done|lia].
      * intros Hs. destruct (IHs Hs) as (j & rj & Hlt & Hrj & Hmj).
        exists (S j), rj. split_and!; [lia|done..].
  - rewrite group_loop_skip_all by done. simpl.
    destruct i as [|i]; simpl.
    + intros [= <-]. split; [intros _ j rj Hlt; lia|congruence].
    + rewrite map_fmap, list_lookup_fmap. intros Hi.
      destruct (rest !! i) as [c'|]; simplify_eq/=. split; [done|].
      intros _. exists 0%nat, r. split_and!; [lia|done..].
Qed.

(** X7. Without [force_grade_all] the results of a group are accepted
    results, then possibly one mistake followed by skipped results only:
    every result before a mistake is [accepted], and a skipped result comes
    after a mistake. *)
Theorem group_results_shape (self : TestGroup Value) ctx w (i : nat) ri :
  force_grade_all ctx = false →
  let results := TestGroupResult.tc_results (TestGroup.execute self ctx w).1 in
  results !! i = Some ri →
  (TestCaseResult.judgement ri = mistake →
   ∀ (j : nat) rj, (j < i)%nat → results !! j = Some rj →
     TestCaseResult.judgement rj = accepted) ∧
  (TestCaseResult.judgement ri = skipped →
   ∃ (j : nat) rj, (j < i)%nat ∧ results !! j = Some rj ∧
     TestCaseResult.judgement rj = mistake).
Proof.
  intros Hf. simpl. rewrite group_execute_unfold.
  pose proof (group_loop_shape ctx (all_test_cases self) w Hf i ri) as H.
  by destruct (TestGroup.execute_loop ctx _ true [] w) as [[a res] w'].
Qed.

(** ** What executing a group touches *)

Lemma case_execute_frame (c : TestCase Value) ctx w :
  let w' := (TestCase.execute c ctx w).2 in
  w_console w' = w_console w ∧ w_clock w' = w_clock w ∧
  ∃ new, w_calls w' = w_calls w ++ new ∧ (length new ≤ 1)%nat.
Proof.
  simpl. rewrite case_execute_unfold.
  unfold TestCase.try_body, TestCase.call_wrapped_func.
  destruct (TestCase.resolve_args c (w_mod w) _) as [xs|e].
  - assert (length [(fn_name (wrapped_func (test_scenario c)), xs)] ≤ 1)%nat
      as Hone by (simpl; lia).
    destruct (fn_call _ xs (w_mod w)) as [[v|e] m']; simpl;
      (split_and!; [done..|]); eauto.
  - simpl. split_and!; [done..|]. exists [].
    split; [by rewrite app_nil_r|simpl; lia].
Qed.

Lemma group_loop_frame ctx (cases : list (TestCase Value)) acc w :
  let '(_, res, w') := TestGroup.execute_loop ctx cases acc [] w in
  w_console w' = w_console w ∧ w_clock w' = w_clock w ∧
  ∃ new, w_calls w' = w_calls w ++ new ∧
    (length new
     ≤ length (List.filter
                 (λ r, bool_decide (TestCaseResult.judgement r ≠ skipped))
                 res))%nat.
Proof.
  revert acc w. induction cases as [|c rest IH]; intros acc w.
  - simpl. split_and!; [done..|]. exists []. by rewrite app_nil_r.
  - rewrite group_loop_cons.
    destruct (negb acc && negb (force_grade_all ctx)).
    + specialize (IH acc w).
      destruct (TestGroup.execute_loop ctx rest acc [] w) as [[a res] w'].
      destruct IH as (Hco & Hcl & new & Hnew & Hlen).
      split_and!; [done..|]. exists new. split; [done|]. simpl. lia.
    + pose proof (case_execute_frame c ctx w) as Hc.
      pose proof (case_execute_not_skipped c ctx w) as Hns.
      destruct (TestCase.execute c ctx w) as [r w1]. simpl in Hc, Hns.
      destruct Hc as (Hco1 & Hcl1 & new1 & Hnew1 & Hlen1).
      specialize (IH (acc && TestCaseResult.is_accepted r) w1).
      destruct (TestGroup.execute_loop ctx rest _ [] w1) as [[a res] w'].
      destruct IH as (Hco & Hcl & new & Hnew & Hlen).
      split_and!; [congruence..|]. exists (new1 ++ new).
      split; [by rewrite Hnew, Hnew1, app_assoc|].
      simpl. rewrite bool_decide_eq_true_2 by done.
      rewrite length_app. simpl. lia.
Qed.

(** X8. Executing a group prints nothing and does not read the clock; the
    log of calls to wrapped functions only grows, by at most one call per
    result that is not skipped. *)
Theorem group_execute_frame (self : TestGroup Value) ctx w :
  let result := (TestGroup.execute self ctx w).1 in
  let w' := (TestGroup.execute self ctx w).2 in
  w_console w' = w_console w ∧ w_clock w' = w_clock w ∧
  ∃ new, w_calls w' = w_calls w ++ new ∧
    (length new
     ≤ length (List.filter
                 (λ r, bool_decide (TestCaseResult.judgement r ≠ skipped))
                 (TestGroupResult.tc_results result)))%nat.
Proof.
  simpl. rewrite group_execute_unfold.
  pose proof (group_loop_frame ctx (all_test_cases self) true w) as H.
  by destruct (TestGroup.execute_loop ctx _ true [] w) as [[a res] w'].
Qed.

End cascade.

Section reporting.
Context {Value : Type}.

Implicit Types (w : World Value) (ctx : ApplicationContext).

#[local] Arguments rich_time : simpl never.
#[local] Arguments console_print : simpl never.

(** ** What a suite prints *)

Lemma suite_loop_console ctx (groups : list (TestGroup Value)) w :
  let '(res, w') := TestSuite.execute_loop ctx groups [] w in
  w_console w'
  = (if ApplicationContext.console_quiet ctx then w_console w
     else w_console w ++ suite_console_lines (w_clock w) res)
  ∧ ∀ n, w_clock w' n = w_clock w (length groups + n)%nat.
Proof.
  revert w. induction groups as [|g rest IH]; intros w.
  - simpl. split; [|done].
    destruct (ApplicationContext.console_quiet ctx); [done|].
    by rewrite app_nil_r.
  - rewrite suite_loop_cons. unfold rich_time. cbn zeta.
    set (wa := mkWorld (w_mod w) (w_console w) (λ n, w_clock w (S n))
                 (w_calls w)).
    set (heading := [Assemble [Str ("[" +:+ w_clock w 0%nat +:+ "]")]
                       "spring_green4";
                     Str "Grading the question:";
                     Text (name g) "bold cyan1"]).
    set (wb := (console_print ctx heading wa).2).
    pose proof (group_loop_frame ctx (all_test_cases g) true wb) as Hg.
    pose proof (group_execute_parent g ctx wb) as Hp.
    rewrite group_execute_unfold in Hp |- *.
    destruct (TestGroup.execute_loop ctx _ true [] wb) as [[a res] wc].
    destruct Hg as (Hco & Hcl & _). simpl in Hp.
    set (r := TestGroupResult.mk g a res).
    set (wd := (console_print ctx [TestGroupResult.rich_message r] wc).2).
    specialize (IH wd).
    destruct (TestSuite.execute_loop ctx rest [] wd) as [new w'].
    destruct IH as [IHco IHcl].
    assert (w_clock wd = λ n, w_clock w (S n)) as Hclock.
    { unfold wd, console_print.
      destruct (ApplicationContext.console_quiet ctx); simpl; rewrite Hcl;
        unfold wb, console_print;
        by destruct (ApplicationContext.console_quiet ctx). }
    split.
    + rewrite IHco. unfold wd, wb, console_print in *.
      destruct (ApplicationContext.console_quiet ctx); simpl in *.
      * congruence.
      * rewrite Hco, Hclock. unfold suite_console_lines. simpl.
        by rewrite <- !app_assoc.
    + intros n. rewrite IHcl, Hclock. done.
Qed.

Lemma concat_imap_length {A B} (f : nat → A → list B) (k : nat)
    (l : list A) :
  (∀ i x, length (f i x) = k) →
  length (concat (imap f l)) = (k * length l)%nat.
Proof.
  intros Hf. revert f Hf. induction l as [|x l IH]; intros f Hf.
  - simpl. lia.
  - cbn [imap concat]. rewrite length_app, Hf, (IH (f ∘ S)).
    + simpl. lia.
    + intros i y. apply Hf.
Qed.

Lemma suite_console_lines_length (clock : nat → string)
    (res : list (TestGroupResult.t Value)) :
  length (suite_console_lines clock res) = (2 * length res)%nat.
Proof. unfold suite_console_lines. by apply concat_imap_length. Qed.

(** X9. What a suite prints and how often it reads the clock.  On a quiet
    console (verbosity below 0) [TestSuite.execute] prints nothing;
    otherwise it appends, for each group in order, the line announcing the
    group with the time read for it and then the message of the group
    result, and nothing else.  It reads the clock once per group, quiet or
    not. *)
Theorem suite_execute_console (self : TestSuite Value) ctx w :
  let result := (TestSuite.execute self ctx w).1 in
  let w' := (TestSuite.execute self ctx w).2 in
  (verbosity ctx < 0 → w_console w' = w_console w) ∧
  (0 ≤ verbosity ctx →
   w_console w'
   = w_console w
     ++ suite_console_lines (w_clock w) (TestSuiteResult.tg_results result)) ∧
  (0 ≤ verbosity ctx →
   length (w_console w')
   = (length (w_console w) + 2 * length (test_groups self))%nat) ∧
  (∀ n, w_clock w' n = w_clock w (length (test_groups self) + n)%nat).
Proof.
  simpl. rewrite suite_execute_unfold.
  pose proof (suite_loop_console ctx (test_groups self) w) as H.
  pose proof (suite_loop_parents ctx (test_groups self) w) as Hp.
  destruct (TestSuite.execute_loop ctx _ [] w) as [res w'].
  destruct H as [Hco Hcl]. simpl in *.
  unfold ApplicationContext.console_quiet in Hco.
  split_and!.
  - intros Hq. by rewrite bool_decide_eq_true_2 in Hco by lia.
  - intros Hq. by rewrite bool_decide_eq_false_2 in Hco by lia.
  - intros Hq. rewrite bool_decide_eq_false_2 in Hco by lia.
    rewrite Hco, length_app. f_equal.
    apply (f_equal length) in Hp. rewrite length_map in Hp. rewrite <- Hp.
    apply suite_console_lines_length.
  - done.
Qed.

(** ** The message of a group result *)

(** X10. The message of a group result never says how many tests were
    skipped: its body is the notice of an empty group if the group declares
    no case, one entry per case result, and a last line that is the
    congratulation if the group is accepted and "Some mistake found, try
    again" otherwise, also when cases were skipped. *)
Theorem group_rich_message_last_line (self : TestGroupResult.t Value) :
  ∃ body,
    TestGroupResult.rich_message self
    = Padding
        (Group
           (body
            ++ [if TestGroupResult.is_accepted self
                then Text "🎉 Congratulations!" "gold1"
                else Text "🔧 Some mistake found, try again" "orange_red1"]))
        [0; 4; 1; 4]%nat
    ∧ length body
      = ((if bool_decide (all_test_cases (TestGroupResult.parent self) = [])
          then 1 else 0)
         + length (TestGroupResult.tc_results self))%nat.
Proof.
  unfold TestGroupResult.rich_message.
  rewrite skipped_testcases_zero.
  rewrite (bool_decide_eq_false_2 (0 > 0)) by lia.
  eexists. split.
  - destruct (TestGroupResult.is_accepted self); reflexivity.
  - rewrite length_app, length_imap.
    by destruct (all_test_cases (TestGroupResult.parent self)).
Qed.

(** ** Scores of a suite result *)

Lemma suite_score_bounds_list (l : list (TestGroupResult.t Value)) :
  Forall (λ r, 0 ≤ score_weight (TestGroupResult.parent r)) l →
  0 ≤ py_sum (map TestGroupResult.score_earned l)
  ∧ py_sum (map TestGroupResult.score_earned l)
    ≤ py_sum (map (λ r, score_weight (TestGroupResult.parent r)) l).
Proof.
  induction 1 as [|r l Hr _ IH]; [done|].
  cbn [map]. rewrite !py_sum_cons.
  unfold TestGroupResult.score_earned at 1 3.
  destruct (TestGroupResult.is_accepted r); simpl; lia.
Qed.

Lemma suite_perfect_full_score (l : list (TestGroupResult.t Value)) :
  forallb TestGroupResult.is_accepted l = true →
  py_sum (map TestGroupResult.score_earned l)
  = py_sum (map (λ r, score_weight (TestGroupResult.parent r)) l).
Proof.
  induction l as [|r l IH]; [done|].
  cbn [forallb map]. intros [Hr Hl]%andb_prop.
  rewrite !py_sum_cons, IH by done.
  unfold TestGroupResult.score_earned. rewrite Hr. simpl. lia.
Qed.

Lemma suite_full_score_perfect (l : list (TestGroupResult.t Value)) :
  Forall (λ r, 0 < score_weight (TestGroupResult.parent r)) l →
  py_sum (map TestGroupResult.score_earned l)
  = py_sum (map (λ r, score_weight (TestGroupResult.parent r)) l) →
  forallb TestGroupResult.is_accepted l = true.
Proof.
  induction 1 as [|r l Hr Hl IH]; [done|].
  cbn [forallb map]. rewrite !py_sum_cons.
  assert (Forall (λ r, 0 ≤ score_weight (TestGroupResult.parent r)) l)
    as Hnn by (eapply Forall_impl; [exact Hl|simpl; lia]).
  destruct (suite_score_bounds_list l Hnn) as [_ Hle].
  unfold TestGroupResult.score_earned at 1.
  destruct (TestGroupResult.is_accepted r); simpl; intros Heq.
  - apply IH. lia.
  - lia.
Qed.

(** X11. For a suite result whose groups have weights that are not
    negative, the score earned lies between 0 and the total weight.  A
    perfect result earns the total weight; and when every weight is
    positive, a result that earns the total weight is perfect. *)
Theorem suite_score_bounds (self : TestSuiteResult.t Value) :
  Forall (λ r, 0 ≤ score_weight (TestGroupResult.parent r))
         (TestSuiteResult.tg_results self) →
  0 ≤ TestSuiteResult.score_earned self
  ∧ TestSuiteResult.score_earned self ≤ TestSuiteResult.total_weight self
  ∧ (TestSuiteResult.is_perfect self = true →
     TestSuiteResult.score_earned self = TestSuiteResult.total_weight self)
  ∧ (Forall (λ r, 0 < score_weight (TestGroupResult.parent r))
            (TestSuiteResult.tg_results self) →
     TestSuiteResult.score_earned self = TestSuiteResult.total_weight self →
     TestSuiteResult.is_perfect self = true).
Proof.
  intros Hnn.
  unfold TestSuiteResult.score_earned, TestSuiteResult.total_weight,
    TestSuiteResult.is_perfect.
  destruct (suite_score_bounds_list _ Hnn) as [H0 Hle].
  split_and!; [done..| |].
  - apply suite_perfect_full_score.
  - apply suite_full_score_perfect.
Qed.

(** ** Tracebacks and verbosity *)

(** X12. The traceback kept with a mistake is the full one exactly when
    [verbose - quiet] is at least 1 and the brief one otherwise; in both
    cases it suppresses the frames of [unittest], [pytest] and [nbnursery].
    The judgement and the world a case leaves are the same at every
    verbosity. *)
Theorem mistake_traceback_by_verbosity (c : TestCase Value)
    (force always : bool) (verbose quiet : Z) w tb :
  let ctx := new_ApplicationContext force always verbose quiet in
  TestCaseResult.rich_traceback (TestCase.execute c ctx w).1 = Some tb →
  tb_suppress tb = ["unittest"; "pytest"; "nbnursery"]
  ∧ (tb_cls tb = FullTraceback ↔ 1 ≤ verbose - quiet)
  ∧ (tb_cls tb = BriefTraceback ↔ verbose - quiet < 1)
  ∧ ∀ ctx',
      TestCaseResult.judgement (TestCase.execute c ctx' w).1
      = TestCaseResult.judgement (TestCase.execute c ctx w).1
      ∧ (TestCase.execute c ctx' w).2 = (TestCase.execute c ctx w).2.
Proof.
  simpl. rewrite case_execute_unfold.
  assert (∀ ctx', TestCaseResult.judgement (TestCase.execute c ctx' w).1
                  = TestCaseResult.judgement
                      (match TestCase.try_body c w with
                       | (Raised e, w') =>
                           (TestCaseResult.mk c mistake None, w')
                       | (Returned _, w') =>
                           (TestCaseResult.mk c accepted None, w')
                       end).1
                  ∧ (TestCase.execute c ctx' w).2
                    = (TestCase.try_body c w).2) as Hany.
  { intros ctx'. rewrite case_execute_unfold.
    by destruct (TestCase.try_body c w) as [[v|e] w']. }
  destruct (TestCase.try_body c w) as [[v|e] w'] eqn:Hbody; [done|].
  simpl. intros [= <-]. simpl.
  unfold ApplicationContext.show_stack_trace, new_ApplicationContext. simpl.
  split_and!; [done| | |].
  - case_bool_decide; split; (done || lia).
  - case_bool_decide; split; (done || lia).
  - intros ctx'. destruct (Hany ctx') as [-> ->]. done.
Qed.

(** ** [validate_pos] *)

(** [validate_pos] returns its value unchanged when the option is
    absent or the value is positive, and raises [BadParameter] for 0 and for
    negative values. *)
Theorem validate_pos_accepts_positive (value : option Z) :
  (is_raised (validate_pos value) = false ↔ ∀ n, value = Some n → 0 < n)
  ∧ (is_raised (validate_pos value) = false →
     validate_pos value = Returned value)
  ∧ (∀ e, validate_pos value = Raised e →
     exc_type e = "BadParameter" ∧ ∃ n, value = Some n ∧ n ≤ 0).
Proof.
  unfold validate_pos. destruct value as [n|].
  - case_bool_decide; simpl; split_and!; try done.
    + split; [|done]. intros _ n' [= <-]. lia.
    + split; [done|]. intros Hpos. specialize (Hpos n eq_refl). lia.
    + intros e [= <-]. split; [done|]. exists n. split; [done|lia].
  - simpl. split_and!; done.
Qed.

End reporting.

(** ** Searching a syntax tree for an identifier *)

Lemma AST_children_ind (P : AST → Prop) :
  (∀ id children, Forall P children → P (Name id children)) →
  (∀ class_name children, Forall P children →
     P (OtherNode class_name children)) →
  ∀ node, P node.
Proof.
  intros HName HOther. fix IH 1.
  intros [id children|class_name children].
  - apply HName. induction children as [|c cs IHcs]; constructor;
      [exact (IH c)|exact IHcs].
  - apply HOther. induction children as [|c cs IHcs]; constructor;
      [exact (IH c)|exact IHcs].
Qed.

Lemma visit_children_accumulates (id_name : string) (children : list AST) :
  Forall (λ c, ∀ r, IdentifierSearcher_visit id_name c r
                    = r || IdentifierSearcher_visit id_name c false)
         children →
  ∀ r,
    fold_left (λ result child, IdentifierSearcher_visit id_name child result)
              children r
    = r || existsb (λ c, IdentifierSearcher_visit id_name c false) children.
Proof.
  induction 1 as [|c cs Hc _ IH]; intros r; simpl.
  - by rewrite orb_false_r.
  - rewrite IH, Hc. by rewrite orb_assoc.
Qed.

(** The visitor never resets its [result]. *)
Lemma visit_accumulates (id_name : string) (node : AST) (r : bool) :
  IdentifierSearcher_visit id_name node r
  = r || IdentifierSearcher_visit id_name node false.
Proof.
  revert r. induction node as [id children IH|class_name children IH]
    using AST_children_ind; intros r; simpl.
  - rewrite !(visit_children_accumulates _ _ IH).
    case_bool_decide; simpl; [by rewrite orb_true_r|done].
  - by rewrite !(visit_children_accumulates _ _ IH).
Qed.

Lemma visit_Name_unfold (id_name id : string) (children : list AST) :
  IdentifierSearcher_visit id_name (Name id children) false
  = bool_decide (id = id_name)
    || existsb (λ c, IdentifierSearcher_visit id_name c false) children.
Proof.
  simpl. rewrite visit_children_accumulates.
  - by case_bool_decide.
  - apply Forall_forall. intros c _ r. apply visit_accumulates.
Qed.

Lemma visit_OtherNode_unfold (id_name class_name : string)
    (children : list AST) :
  IdentifierSearcher_visit id_name (OtherNode class_name children) false
  = existsb (λ c, IdentifierSearcher_visit id_name c false) children.
Proof.
  simpl. rewrite visit_children_accumulates; [done|].
  apply Forall_forall. intros c _ r. apply visit_accumulates.
Qed.

Lemma visit_name_occurs (id_name : string) (node : AST) :
  IdentifierSearcher_visit id_name node false = true
  ↔ name_occurs id_name node.
Proof.
  induction node as [id children IH|class_name children IH]
    using AST_children_ind.
  - rewrite visit_Name_unfold, orb_true_iff, bool_decide_eq_true,
      existsb_exists.
    rewrite Forall_forall in IH. split.
    + intros [->|(c & Hc & Hv)]; [constructor|].
      apply list_elem_of_In in Hc.
      eapply name_occurs_under_Name; [done|]. by apply IH.
    + inversion 1 as [|? ? c Hc Hocc|]; subst; [by left|].
      right. exists c. split; [by apply list_elem_of_In|]. by apply IH.
  - rewrite visit_OtherNode_unfold, existsb_exists.
    rewrite Forall_forall in IH. split.
    + intros (c & Hc & Hv). apply list_elem_of_In in Hc.
      eapply name_occurs_under_OtherNode; [done|]. by apply IH.
    + inversion 1 as [| |? ? c Hc Hocc]; subst.
      exists c. split; [by apply list_elem_of_In|]. by apply IH.
Qed.

(** X13. [code_contains_identifier] answers [True] exactly when some node of
    class [Name] in the tree carries the identifier; an identifier that only
    appears elsewhere (as an attribute, as a parameter or function name) is
    not found.  A string that does not compile makes it raise what [compile]
    raises. *)
Theorem code_contains_identifier_spec (compile : string → Outcome AST)
    (code : AST + string) (id_name : string) :
  (∀ tree,
     code = inl tree ∨ (∃ source, code = inr source
                                  ∧ compile source = Returned tree) →
     ∃ b, code_contains_identifier compile code id_name = Returned b
          ∧ (b = true ↔ name_occurs id_name tree)) ∧
  (∀ source e,
     code = inr source → compile source = Raised e →
     code_contains_identifier compile code id_name = Raised e).
Proof.
  unfold code_contains_identifier. split.
  - intros tree [->|(source & -> & ->)]; eexists; (split; [done|]);
      apply visit_name_occurs.
  - by intros source e -> ->.
Qed.

(** ** The exit status of the grading script *)

Section exit_status.
Context {Value : Type}.

Lemma suite_results_accepted_flags (self : TestSuite Value)
    (ctx : ApplicationContext) (w : World Value) r :
  r ∈ TestSuiteResult.tg_results (TestSuite.execute self ctx w).1 →
  TestGroupResult.is_accepted r
  = forallb TestCaseResult.is_accepted (TestGroupResult.tc_results r).
Proof.
  intros (i & Hi)%list_elem_of_lookup.
  assert (is_Some (test_groups self !! i)) as [g Hg].
  { apply lookup_lt_is_Some.
    pose proof (suite_loop_parents ctx (test_groups self) w) as Hp.
    rewrite suite_execute_unfold in Hi.
    destruct (TestSuite.execute_loop ctx _ [] w) as [res w'].
    simpl in *. rewrite <- Hp, length_map. apply lookup_lt_is_Some. eauto. }
  destruct (suite_loop_iteration ctx self i g w Hg) as (wi & _ & _ & Hr).
  rewrite Hi in Hr. injection Hr as ->.
  apply group_execute_is_accepted.
Qed.

(** X14. The grading script exits with status 0 exactly when
    [always_zero_exit] is set or every case result of every group of the
    suite is [accepted]; it exits with status 1 otherwise. *)
Theorem program_exit_status_zero (self : TestSuite Value)
    (ctx : ApplicationContext) (w : World Value) :
  let result := (TestSuite.execute self ctx w).1 in
  (program_exit_status ctx result = 0
   ∨ program_exit_status ctx result = 1) ∧
  (program_exit_status ctx result = 0
   ↔ always_zero_exit ctx = true
     ∨ ∀ r c, r ∈ TestSuiteResult.tg_results result →
              c ∈ TestGroupResult.tc_results r →
              TestCaseResult.judgement c = accepted).
Proof.
  simpl. unfold program_exit_status.
  set (result := (TestSuite.execute self ctx w).1).
  assert (TestSuiteResult.is_perfect result = true
          ↔ ∀ r c, r ∈ TestSuiteResult.tg_results result →
                   c ∈ TestGroupResult.tc_results r →
                   TestCaseResult.judgement c = accepted) as Hperfect.
  { unfold TestSuiteResult.is_perfect. rewrite forallb_forall. split.
    - intros Hall r c Hr Hc.
      specialize (Hall r (proj1 (list_elem_of_In _ _) Hr)).
      rewrite (suite_results_accepted_flags self ctx w r Hr) in Hall.
      rewrite forallb_forall in Hall.
      apply is_accepted_true, Hall. by apply list_elem_of_In.
    - intros Hall r Hr%list_elem_of_In.
      rewrite (suite_results_accepted_flags self ctx w r Hr).
      apply forallb_forall. intros c Hc%list_elem_of_In.
      apply is_accepted_true. by eapply Hall. }
  destruct (always_zero_exit ctx); simpl.
  - split; [by left|]. split; [by left|done].
  - destruct (TestSuiteResult.is_perfect result) eqn:Hp.
    + split; [by left|]. split; [|done]. intros _. right. by apply Hperfect.
    + split; [by right|]. split; [done|].
      intros [?|Hall]; [done|]. apply Hperfect in Hall. congruence.
Qed.

End exit_status.

(** * The further properties, evaluated on the instance *)

Lemma data_get_value_roundtrip_witness :
  (TestScenario.data count_even_scenario [IntList [1; 2; 3; 4; 5]; IntValue 2]
   = Returned case_expect_2
   ∧ TestScenario.field_ids count_even_scenario !! 1%nat = Some 2%nat
   ∧ 2%nat ∉ drop 2 (TestScenario.field_ids count_even_scenario))
  ∧ ∃ v, [IntList [1; 2; 3; 4; 5]; IntValue 2] !! 1%nat = Some v
         ∧ params case_expect_2 !! 2%nat = Some v
         ∧ ExecArg.get_value (Param 2) case_expect_2 exam_mod = Returned v.
Proof.
  assert (2%nat ∉ drop 2 (TestScenario.field_ids count_even_scenario))
    as Hlater by (simpl; apply not_elem_of_nil).
  split; [split_and!; [reflexivity| reflexivity|exact Hlater]|].
  apply (data_get_value_roundtrip count_even_scenario
           [IntList [1; 2; 3; 4; 5]; IntValue 2] case_expect_2 1 2 exam_mod);
    [reflexivity|reflexivity|exact Hlater].
Defined.

Lemma data_case_resolution_witness :
  TestScenario.data count_even_scenario [IntList [1; 2; 3; 4; 5]; IntValue 2]
  = Returned case_expect_2
  ∧ (let resolved :=
       TestCase.resolve_args case_expect_2 exam_mod
         (exec_args count_even_scenario) in
     (is_raised resolved = false
      ↔ ∀ n, ModuleItem n ∈ exec_args count_even_scenario
             → is_Some (exam_mod !! n)) ∧
     (∀ xs, resolved = Returned xs
            → length xs = length (exec_args count_even_scenario)) ∧
     (∀ e, resolved = Raised e →
        ∃ n, ModuleItem n ∈ exec_args count_even_scenario
             ∧ exam_mod !! n = None
             ∧ e = mkExn "AttributeError" n)).
Proof.
  split; [reflexivity|].
  apply (data_case_resolution count_even_scenario
           [IntList [1; 2; 3; 4; 5]; IntValue 2] case_expect_2 exam_mod).
  reflexivity.
Defined.

Lemma exam_mod_defines_items :
  ∀ n, ModuleItem n ∈ count_even_sources → is_Some (exam_mod !! n).
Proof.
  intros n Hn. unfold count_even_sources in Hn.
  apply elem_of_cons in Hn as [[= ->]|Hn]; [eexists; reflexivity|].
  apply elem_of_cons in Hn as [[=]|Hn].
  apply elem_of_cons in Hn as [[=]|Hn].
  by apply not_elem_of_nil in Hn.
Qed.

Lemma created_case_calls_function_once_witness :
  (TestScenario.create count_even_sources test_count_even
   = Returned count_even_scenario
   ∧ TestScenario.data count_even_scenario
       [IntList [1; 2; 3; 4; 5]; IntValue 2]
     = Returned case_expect_2
   ∧ ∀ n, ModuleItem n ∈ count_even_sources
          → is_Some (w_mod exam_world !! n))
  ∧ (let r := (TestCase.execute case_expect_2 ctx_default exam_world).1 in
     let w' := (TestCase.execute case_expect_2 ctx_default exam_world).2 in
     ∃ xs,
       length xs = length (fn_parameters test_count_even) ∧
       w_calls w' = w_calls exam_world ++ [(fn_name test_count_even, xs)] ∧
       w_mod w' = (fn_call test_count_even xs (w_mod exam_world)).2 ∧
       TestCaseResult.judgement r
       = (if is_raised (fn_call test_count_even xs (w_mod exam_world)).1
          then mistake else accepted)).
Proof.
  split; [split_and!; [reflexivity|reflexivity|exact exam_mod_defines_items]|].
  apply (created_case_calls_function_once count_even_sources test_count_even
           count_even_scenario [IntList [1; 2; 3; 4; 5]; IntValue 2]
           case_expect_2 ctx_default exam_world);
    [reflexivity|reflexivity|exact exam_mod_defines_items].
Defined.



Lemma force_grade_all_executes_every_case_witness :
  (force_grade_all ctx_force = true
   ∧ all_test_cases group_fail_first !! 1%nat = Some case_expect_2)
  ∧ (let wi := world_before_case ctx_force group_fail_first 1 exam_world in
     TestGroupResult.tc_results
       (TestGroup.execute group_fail_first ctx_force exam_world).1 !! 1%nat
     = Some (TestCase.execute case_expect_2 ctx_force wi).1
     ∧ world_before_case ctx_force group_fail_first 2 exam_world
       = (TestCase.execute case_expect_2 ctx_force wi).2
     ∧ TestCaseResult.judgement (TestCase.execute case_expect_2 ctx_force wi).1
       ≠ skipped).
Proof.
  split; [split; reflexivity|].
  apply (force_grade_all_executes_every_case group_fail_first ctx_force
           exam_world 1 case_expect_2); reflexivity.
Defined.

Lemma group_score_independent_of_ctx_witness :
  w_mod exam_world = w_mod exam_world
  ∧ (TestGroupResult.is_accepted
       (TestGroup.execute group_fail_first ctx_default exam_world).1
     = TestGroupResult.is_accepted
         (TestGroup.execute group_fail_first ctx_force exam_world).1
     ∧ TestGroupResult.score_earned
         (TestGroup.execute group_fail_first ctx_default exam_world).1
       = TestGroupResult.score_earned
           (TestGroup.execute group_fail_first ctx_force exam_world).1).
Proof.
  split; [reflexivity|].
  apply (group_score_independent_of_ctx group_fail_first ctx_default ctx_force
           exam_world exam_world).
  reflexivity.
Defined.

Lemma group_results_shape_witness :
  let results :=
    TestGroupResult.tc_results
      (TestGroup.execute group_fail_first ctx_default exam_world).1 in
  let ri := TestCase.do_skip case_expect_2 in
  (force_grade_all ctx_default = false ∧ results !! 1%nat = Some ri)
  ∧ ((TestCaseResult.judgement ri = mistake →
      ∀ (j : nat) rj, (j < 1)%nat → results !! j = Some rj →
        TestCaseResult.judgement rj = accepted) ∧
     (TestCaseResult.judgement ri = skipped →
      ∃ (j : nat) rj, (j < 1)%nat ∧ results !! j = Some rj ∧
        TestCaseResult.judgement rj = mistake)).
Proof.
  split; [split; reflexivity|].
  apply (group_results_shape group_fail_first ctx_default exam_world 1
           (TestCase.do_skip case_expect_2)); reflexivity.
Defined.

Lemma suite_score_bounds_witness :
  let result := (TestSuite.execute suite_10_20 ctx_default exam_world).1 in
  Forall (λ r, 0 ≤ score_weight (TestGroupResult.parent r))
         (TestSuiteResult.tg_results result)
  ∧ (0 ≤ TestSuiteResult.score_earned result
     ∧ TestSuiteResult.score_earned result
       ≤ TestSuiteResult.total_weight result
     ∧ (TestSuiteResult.is_perfect result = true →
        TestSuiteResult.score_earned result
        = TestSuiteResult.total_weight result)
     ∧ (Forall (λ r, 0 < score_weight (TestGroupResult.parent r))
               (TestSuiteResult.tg_results result) →
        TestSuiteResult.score_earned result
        = TestSuiteResult.total_weight result →
        TestSuiteResult.is_perfect result = true)).
Proof.
  assert (Forall (λ r : TestGroupResult.t ExamValue,
                    0 ≤ score_weight (TestGroupResult.parent r))
                 (TestSuiteResult.tg_results
                    (TestSuite.execute suite_10_20 ctx_default
                       exam_world).1)) as Hnn.
  { vm_compute. repeat constructor; discriminate. }
  split; [exact Hnn|].
  apply (suite_score_bounds
           (TestSuite.execute suite_10_20 ctx_default exam_world).1 Hnn).
Defined.

Lemma mistake_traceback_by_verbosity_witness :
  let ctx := new_ApplicationContext false false 0 0 in
  TestCaseResult.rich_traceback
    (TestCase.execute case_expect_3 ctx exam_world).1
  = Some expect_3_traceback
  ∧ (tb_suppress expect_3_traceback = ["unittest"; "pytest"; "nbnursery"]
     ∧ (tb_cls expect_3_traceback = FullTraceback ↔ 1 ≤ 0 - 0)
     ∧ (tb_cls expect_3_traceback = BriefTraceback ↔ 0 - 0 < 1)
     ∧ ∀ ctx',
         TestCaseResult.judgement
           (TestCase.execute case_expect_3 ctx' exam_world).1
         = TestCaseResult.judgement
             (TestCase.execute case_expect_3 ctx exam_world).1
         ∧ (TestCase.execute case_expect_3 ctx' exam_world).2
           = (TestCase.execute case_expect_3 ctx exam_world).2).
Proof.
  split; [reflexivity|].
  apply (mistake_traceback_by_verbosity case_expect_3 false false 0 0
           exam_world expect_3_traceback).
  reflexivity.
Defined.

(** [get_ipython().system('ls')] mentions the name [get_ipython];
    [shell.get_ipython], an attribute of the name [shell], does not. *)
Example code_contains_identifier_examples :
  let bang :=
    OtherNode "Module"
      [OtherNode "Expr"
         [OtherNode "Call"
            [OtherNode "Attribute"
               [OtherNode "Call"
                  [Name "get_ipython" [OtherNode "Load" []]];
                OtherNode "Load" []];
             OtherNode "Constant" []]]] in
  let attribute :=
    OtherNode "Module"
      [OtherNode "Expr"
         [OtherNode "Attribute"
            [Name "shell" [OtherNode "Load" []]; OtherNode "Load" []]]] in
  code_contains_identifier (λ _, Raised (mkExn "SyntaxError" ""))
    (inl bang) "get_ipython" = Returned true
  ∧ code_contains_identifier (λ _, Raised (mkExn "SyntaxError" ""))
      (inl attribute) "get_ipython" = Returned false.
Proof. split; reflexivity. Qed.
